(** * Tightlock: event delivery reconciliation

    A shallow embedding of the reconciliation code of Tightlock:

    - [dags/utils.py]: [RunResult.__add__],
      [GoogleAdsUtils.get_partial_failures] and [DrillMixin._parse_data];
    - [dags/destinations/ga4mp.py]: [Destination._send_validate_request],
      [Destination._parse_validate_result] and
      [Destination._get_valid_and_invalid_events].

    Python values are modelled by the inductive type [pyval], dictionaries
    that keep their insertion order by association lists, exceptions by the
    type [exn], and code that prints, logs or talks to the network by a
    state-and-exception monad. *)

From Stdlib Require Import ZArith String List Bool Lia Sorted Permutation.
From stdpp Require Import base gmap strings list fin_maps.
From stdpp Require Import pretty.

Set Warnings "-register-all".

Open Scope string_scope.
Open Scope list_scope.
Open Scope Z_scope.

(** ** Python values *)

Module Py.

(** The values that rows, events, payloads and decoded JSON bodies hold.
    Numbers are integers; floating point values are outside the model. *)
Inductive pyval : Type :=
| VNone
| VBool (b : bool)
| VInt (z : Z)
| VStr (s : string)
| VList (l : list pyval)
| VDict (d : list (string * pyval)).

(** A [dict] with string keys, in insertion order. *)
Definition Dict : Type := list (string * pyval).

(** [bool(v)]: [None], [False], [0], [''], [[]] and [{}] are falsy. *)
Definition truthy (v : pyval) : bool :=
  match v with
  | VNone => false
  | VBool b => b
  | VInt z => negb (z =? 0)
  | VStr s => negb (String.eqb s "")
  | VList l => match l with [] => false | _ :: _ => true end
  | VDict d => match d with [] => false | _ :: _ => true end
  end.

(** [v == s] for a string [s]: only a string compares equal to a string. *)
Definition py_eq_str (v : pyval) (s : string) : bool :=
  match v with
  | VStr t => String.eqb t s
  | _ => false
  end.

(** [d.get(k)]: the value stored under [k], if any. *)
Fixpoint dict_get (k : string) (d : Dict) : option pyval :=
  match d with
  | [] => None
  | (k', v) :: d' => if String.eqb k k' then Some v else dict_get k d'
  end.

(** [d[k] = v]: an existing key keeps its position and takes the new value,
    a new key goes to the end. *)
Fixpoint dict_set (k : string) (v : pyval) (d : Dict) : Dict :=
  match d with
  | [] => [(k, v)]
  | (k', v') :: d' =>
      if String.eqb k k' then (k', v) :: d' else (k', v') :: dict_set k v d'
  end.

(** [d.values()] *)
Definition dict_values (d : Dict) : list pyval := map snd d.

(** [any(vs)] *)
Definition any (vs : list pyval) : bool := existsb truthy vs.

(** [p in s] for two strings: [p] occurs in [s] as a substring. *)
Fixpoint str_contains (p s : string) : bool :=
  String.prefix p s ||
  match s with
  | EmptyString => false
  | String _ s' => str_contains p s'
  end.

End Py.
Export Py.

(** ** The error taxonomy *)

Module Errors.

(** Modelled from the spec: module [errors] is not among the sources. The
    three members that [ga4mp.py] names are constructors of their own; the
    members that only the table [_ERROR_TYPES] refers to (one per known
    field, "keyed by offending field") are [FIELD_ERROR]. *)
Inductive ErrorNameIDMap : Type :=
| RETRIABLE_GA4_HOOK_ERROR_HTTP_ERROR
| NON_RETRIABLE_ERROR_EVENT_NOT_SENT
| GA4_HOOK_ERROR_INVALID_VALUES
| FIELD_ERROR (name : string).

(** What [error_num] is given when the exception is built: the enumeration
    member, or (line 137 of [ga4mp.py]) the member's [.value]. *)
Inductive ErrorNum : Type :=
| Member (m : ErrorNameIDMap)
| MemberValue (m : ErrorNameIDMap).

(** The kind of failure an [error_num] stands for. *)
Definition error_kind (n : ErrorNum) : ErrorNameIDMap :=
  match n with
  | Member m => m
  | MemberValue m => m
  end.

End Errors.
Export Errors.

(** ** Exceptions, results and the monad of effects *)

Module Effects.

Inductive exn : Type :=
| KeyError (key : pyval)
| IndexError
| TypeError
| ConnectionError                 (* requests.ConnectionError *)
| JSONDecodeError                 (* json.JSONDecodeError *)
| DataOutConnectorValueError (error_num : ErrorNum)
| OtherException (name : string).

Inductive Res (A : Type) : Type :=
| Ok (a : A)
| Raise (e : exn).
Arguments Ok {A} a.
Arguments Raise {A} e.

(** Computations over a state [S] that may raise. *)
Definition M (S A : Type) : Type := S -> Res A * S.

Definition ret {S A} (a : A) : M S A := fun s => (Ok a, s).
Definition raise {S A} (e : exn) : M S A := fun s => (Raise e, s).
Definition bind {S A B} (m : M S A) (f : A -> M S B) : M S B :=
  fun s =>
    match m s with
    | (Ok a, s') => f a s'
    | (Raise e, s') => (Raise e, s')
    end.
Definition lift {S A} (r : Res A) : M S A := fun s => (r, s).

(** [try: m] with the outcome handed to the [except] clauses. *)
Definition try_block {S A} (m : M S A) : M S (Res A) :=
  fun s => let '(r, s') := m s in (Ok r, s').

Definition res_bind {A B} (r : Res A) (f : A -> Res B) : Res B :=
  match r with
  | Ok a => f a
  | Raise e => Raise e
  end.

End Effects.
Export Effects.

Notation "x <- m ;; k" := (bind m (fun x => k))
  (at level 100, m at next level, right associativity).
Notation "m ;;; k" := (bind m (fun _ => k))
  (at level 100, right associativity).
Notation "x <-? r ;; k" := (res_bind r (fun x => k))
  (at level 100, r at next level, right associativity).

(** ** [dags/utils.py] *)

Module Utils.

(** *** [RunResult] *)

Record RunResult : Type := mkRunResult {
  successful_hits : Z;
  failed_hits : Z;
  error_messages : list string;
  dry_run : bool
}.

Definition __add__ (self other : RunResult) : RunResult :=
  let sh := successful_hits self + successful_hits other in
  let fh := failed_hits self + failed_hits other in
  let em := error_messages self ++ error_messages other in
  let dr := dry_run self || dry_run other in
  mkRunResult sh fh em dr.

(** *** [GoogleAdsUtils.get_partial_failures] *)

(** The decoded failure objects, with the attributes the function reads:
    [error.location.field_path_elements[0].index], [error.error_code] and
    [error.message]. [error_code] and [message] hold the text that the
    f-string puts in their place. *)
Record FieldPathElement : Type := { index : Z }.
Record ErrorLocation : Type := { field_path_elements : list FieldPathElement }.
Record GoogleAdsError : Type := {
  error_code : string;
  message : string;
  location : ErrorLocation
}.
Record GoogleAdsFailure : Type := { errors : list GoogleAdsError }.

(** An entry of [details]: a serialized failure. *)
Record ErrorDetail : Type := { value : string }.

(** The [google.rpc.Status] of a response; [None] stands for an attribute
    that the object does not have, which is what [getattr] with a default
    is there for. *)
Record Status : Type := {
  code : option Z;
  details : option (list ErrorDetail)
}.
Record MutateResponse : Type := { partial_failure_error : option Status }.

(** The client, as far as the function uses it:
    [type(client.get_type("GoogleAdsFailure")).deserialize]. *)
Record GoogleAdsClient : Type := {
  deserialize : string -> Res GoogleAdsFailure
}.

(** What the function prints. *)
Inductive Printed : Type :=
| No_partial_failures_found
| Partial_failures (partial_failures : gmap Z string).

Definition print (line : Printed) : M (list Printed) unit :=
  fun out => (Ok tt, out ++ [line]).

(** [f'Code: {error.error_code}, Error: {error.message}'] *)
Definition format_message (error : GoogleAdsError) : string :=
  "Code: " +:+ error_code error +:+ ", Error: " +:+ message error.

(** [for error in failure_object.errors: ...]; [partial_failures] is a
    [defaultdict(str)], so a missing index reads as the empty string. *)
Fixpoint errors_loop (errs : list GoogleAdsError)
    (partial_failures : gmap Z string) : Res (gmap Z string) :=
  match errs with
  | [] => Ok partial_failures
  | error :: errs' =>
      match field_path_elements (location error) with
      | [] => Raise IndexError
      | element :: _ =>
          let index := index element in
          let message := format_message error in
          errors_loop errs'
            (<[index := default "" (partial_failures !! index) +:+ message]>
               partial_failures)
      end
  end.

(** [for error_detail in error_details: ...] *)
Fixpoint details_loop (client : GoogleAdsClient)
    (error_details : list ErrorDetail)
    (partial_failures : gmap Z string) : Res (gmap Z string) :=
  match error_details with
  | [] => Ok partial_failures
  | error_detail :: rest =>
      failure_object <-? deserialize client (value error_detail) ;;
      partial_failures' <-? errors_loop (errors failure_object)
                              partial_failures ;;
      details_loop client rest partial_failures'
  end.

Definition get_partial_failures (client : GoogleAdsClient)
    (response : MutateResponse) : M (list Printed) (gmap Z string) :=
  let partial_failure := partial_failure_error response in
  let code := match partial_failure with Some st => code st | None => None end in
  match code with
  | Some 0 =>
      print No_partial_failures_found ;;;
      ret ∅
  | _ =>
      let error_details :=
        match partial_failure with
        | Some st => default [] (details st)
        | None => []
        end in
      partial_failures <- lift (details_loop client error_details ∅) ;;
      print (Partial_failures partial_failures) ;;;
      ret partial_failures
  end.

(** *** [DrillMixin._parse_data] *)

(** [for i, field in enumerate(fields): event_dict[field] = event[i]];
    a row that is too short raises [IndexError]. *)
Fixpoint fill_event_dict (fields : list string) (i : nat)
    (event : list pyval) (event_dict : Dict) : Res Dict :=
  match fields with
  | [] => Ok event_dict
  | field :: fields' =>
      match event !! i with
      | None => Raise IndexError
      | Some v => fill_event_dict fields' (S i) event (dict_set field v event_dict)
      end
  end.

(** [for event in rows: ...] with the list [events] built so far. *)
Fixpoint rows_loop (fields : list string) (rows : list (list pyval))
    (events : list Dict) : Res (list Dict) :=
  match rows with
  | [] => Ok events
  | event :: rows' =>
      event_dict <-? fill_event_dict fields 0 event [] ;;
      rows_loop fields rows'
        (if any (dict_values event_dict)
         then events ++ [event_dict]
         else events)
  end.

Definition _parse_data (fields : list string) (rows : list (list pyval))
    : Res (list Dict) :=
  rows_loop fields rows [].

End Utils.

(** ** [dags/destinations/ga4mp.py] *)

Module GA4MP.

(** A [requests.Response], as far as the code reads it: [status_code], and
    what [json()] gives ([None]: it raises [json.JSONDecodeError]). *)
Record Response : Type := {
  status_code : Z;
  json : option pyval
}.

(** The attributes of [Destination] that validation reads. *)
Record Destination : Type := {
  payload_type : pyval;
  non_personalized_ads : pyval;
  user_properties : pyval;
  validate_url : string
}.

(** What is printed and logged. *)
Inductive Output : Type :=
| Print_validated_event (event : Dict)
| Logging_error (field_path description : pyval).

(** The state of a run: how many POSTs were sent, and the output so far. *)
Record World : Type := {
  posts : nat;
  output : list Output
}.

Definition emit (o : Output) : M World unit :=
  fun w => (Ok tt, {| posts := posts w; output := output w ++ [o] |}).

(** [d[k]] for a dictionary [d]. *)
Definition getitem (d : Dict) (k : string) : Res pyval :=
  match dict_get k d with
  | Some v => Ok v
  | None => Raise (KeyError (VStr k))
  end.

(** [v[k]] for any value [v] and a string [k]. *)
Definition subscript (v : pyval) (k : string) : Res pyval :=
  match v with
  | VDict d => getitem d k
  | _ => Raise TypeError
  end.

(** [v[0]] for any value [v]. *)
Definition subscript0 (v : pyval) : Res pyval :=
  match v with
  | VList (x :: _) => Ok x
  | VList [] => Raise IndexError
  | VStr (String c _) => Ok (VStr (String c EmptyString))
  | VStr EmptyString => Raise IndexError
  | VDict _ => Raise (KeyError (VInt 0))
  | _ => Raise TypeError
  end.

(** [name in v] for a string [name] and any value [v]. *)
Definition contained_in (name : string) (v : pyval) : Res bool :=
  match v with
  | VStr s => Ok (str_contains name s)
  | VList l => Ok (existsb (fun x => py_eq_str x name) l)
  | VDict d => Ok (existsb (fun kv => String.eqb (fst kv) name) d)
  | _ => Raise TypeError
  end.

(** [fields(self, config)]: the names of the input fields. *)
Definition fields (config : pyval) : list string :=
  ["user_id"; "event_name"; "engagement_time_msec"; "session_id"].

(** A call of [self.fields] with the arguments [args]: the method takes
    the one argument [config]. *)
Definition call_fields (args : list pyval) : Res (list string) :=
  match args with
  | [config] => Ok (fields config)
  | _ => Raise TypeError
  end.

(** [for event in rows: ...] of [_parse_input_data]: every row is kept. *)
Fixpoint input_rows_loop (fields : list string) (rows : list (list pyval))
    (events : list Dict) : Res (list Dict) :=
  match rows with
  | [] => Ok events
  | event :: rows' =>
      event_dict <-? Utils.fill_event_dict fields 0 event [] ;;
      input_rows_loop fields rows' (events ++ [event_dict])
  end.

(** [_parse_input_data]: [self.fields()] is called without [config]. *)
Definition _parse_input_data (rows : list (list pyval)) : Res (list Dict) :=
  fields <-? call_fields [] ;;
  input_rows_loop fields rows [].

Section Destination.

(** [PayloadTypes.FIREBASE.value] and [PayloadTypes.GTAG.value], the table
    [_ERROR_TYPES] (in the order it is iterated) and the network: what the
    [n]-th call of [requests.post] of the run, to [url] with the body
    [body], returns or raises. *)
Variable FIREBASE GTAG : string.
Variable _ERROR_TYPES : list (string * ErrorNameIDMap).
Variable requests_post : nat -> string -> pyval -> Res Response.

(** [_ERROR_TYPES[name]] *)
Fixpoint table_get (name : string) (table : list (string * ErrorNameIDMap))
    : option ErrorNameIDMap :=
  match table with
  | [] => None
  | (k, e) :: table' => if String.eqb name k then Some e else table_get name table'
  end.

(** Lines 72-87: the payload of one event. *)
Definition build_payload (self : Destination) (event : Dict) : Res Dict :=
  let payload : Dict := [] in
  payload <-?
    (if py_eq_str (payload_type self) FIREBASE then
       v <-? getitem event "app_instance_id" ;;
       Ok (dict_set "app_instance_id" v payload)
     else if py_eq_str (payload_type self) GTAG then
       v <-? getitem event "client_id" ;;
       Ok (dict_set "client_id" v payload)
     else Ok payload) ;;
  user_id <-? getitem event "user_id" ;;
  let payload := dict_set "user_id" user_id payload in
  let payload :=
    dict_set "non_personalized_ads" (non_personalized_ads self) payload in
  let payload :=
    if truthy (user_properties self)
    then dict_set "user_properties" (user_properties self) payload
    else payload in
  name <-? getitem event "event_name" ;;
  engagement_time_msec <-? getitem event "engagement_time_msec" ;;
  session_id <-? getitem event "session_id" ;;
  Ok (dict_set "events"
        (VList [VDict [("name", name);
                       ("params",
                        VDict [("engagement_time_msec", engagement_time_msec);
                               ("session_id", session_id)])]])
        payload).

Definition _send_validate_request (self : Destination) (payload : Dict)
    : M World Response :=
  let validating_payload :=
    dict_set "validationBehavior" (VStr "ENFORCE_RECOMMENDATIONS") payload in
  fun w =>
    let w' := {| posts := S (posts w); output := output w |} in
    match requests_post (posts w) (validate_url self)
            (VDict validating_payload) with
    | Ok response => (Ok response, w')
    | Raise ConnectionError =>
        (Raise (DataOutConnectorValueError
                  (Member RETRIABLE_GA4_HOOK_ERROR_HTTP_ERROR)), w')
    | Raise e => (Raise e, w')
    end.

(** [for property_name in _ERROR_TYPES: ...] *)
Fixpoint error_types_loop (names : list string)
    (field_path description : pyval) : Res unit :=
  match names with
  | [] => Ok tt
  | property_name :: names' =>
      found <-?
        (if py_eq_str field_path property_name then Ok true
         else contained_in property_name description) ;;
      if found : bool then
        match table_get property_name _ERROR_TYPES with
        | Some e => Raise (DataOutConnectorValueError (Member e))
        | None => Raise (KeyError (VStr property_name))
        end
      else error_types_loop names' field_path description
  end.

Definition _parse_validate_result (event : Dict) (response : Response)
    : M World unit :=
  emit (Print_validated_event event) ;;;
  if 500 <=? status_code response then
    raise (DataOutConnectorValueError
             (Member RETRIABLE_GA4_HOOK_ERROR_HTTP_ERROR))
  else if negb (status_code response =? 200) then
    raise (DataOutConnectorValueError
             (Member NON_RETRIABLE_ERROR_EVENT_NOT_SENT))
  else
    validation_result <-
      match json response with
      | Some v => ret v
      | None => raise (DataOutConnectorValueError
                         (MemberValue RETRIABLE_GA4_HOOK_ERROR_HTTP_ERROR))
      end ;;
    messages <- lift (subscript validation_result "validationMessages") ;;
    if negb (truthy messages) then ret tt
    else
      messages <- lift (subscript validation_result "validationMessages") ;;
      message <- lift (subscript0 messages) ;;
      field_path <- lift (subscript message "fieldPath") ;;
      description <- lift (subscript message "description") ;;
      lift (error_types_loop (map fst _ERROR_TYPES) field_path description) ;;;
      logged_path <- lift (subscript message "fieldPath") ;;
      logged_description <- lift (subscript message "description") ;;
      emit (Logging_error logged_path logged_description) ;;;
      raise (DataOutConnectorValueError (Member GA4_HOOK_ERROR_INVALID_VALUES)).

(** [for i, event in enumerate(events): ...] with the two lists built so
    far; only [DataOutConnectorValueError] is caught. *)
Fixpoint events_loop (self : Destination) (i : nat) (events : list Dict)
    (valid_events : list (nat * Dict))
    (invalid_indices_and_errors : list (nat * ErrorNum))
    : M World (list (nat * Dict) * list (nat * ErrorNum)) :=
  match events with
  | [] => ret (valid_events, invalid_indices_and_errors)
  | event :: events' =>
      payload <- lift (build_payload self event) ;;
      outcome <- try_block (response <- _send_validate_request self payload ;;
                            _parse_validate_result event response) ;;
      match outcome with
      | Ok _ =>
          events_loop self (S i) events'
            (valid_events ++ [(i, event)]) invalid_indices_and_errors
      | Raise (DataOutConnectorValueError error_num) =>
          events_loop self (S i) events'
            valid_events (invalid_indices_and_errors ++ [(i, error_num)])
      | Raise e => raise e
      end
  end.

Definition _get_valid_and_invalid_events (self : Destination)
    (events : list Dict)
    : M World (list (nat * Dict) * list (nat * ErrorNum)) :=
  events_loop self 0 events [] [].

(** *** Notions used to state the properties of validation *)

(** The [try] block of the loop for one event. *)
Definition validate (self : Destination) (event payload : Dict)
    : M World unit :=
  response <- _send_validate_request self payload ;;
  _parse_validate_result event response.

(** How the validation of [event] ends when [k] POSTs were sent before. *)
Definition validation (self : Destination) (k : nat) (event payload : Dict)
    : Res unit :=
  fst (validate self event payload {| posts := k; output := [] |}).

(** How one round of the loop ends for [event]: building the payload, then
    validating it. *)
Definition event_outcome (self : Destination) (k : nat) (event : Dict)
    : Res unit :=
  payload <-? build_payload self event ;;
  validation self k event payload.

(** The fields of an event that the payload builder reads. *)
Definition required_fields (self : Destination) : list string :=
  (if py_eq_str (payload_type self) FIREBASE then ["app_instance_id"]
   else if py_eq_str (payload_type self) GTAG then ["client_id"]
   else [])
  ++ ["user_id"; "event_name"; "engagement_time_msec"; "session_id"].

Definition has_fields (self : Destination) (event : Dict) : bool :=
  forallb (fun k => match dict_get k event with Some _ => true | None => false end)
          (required_fields self).

(** The documented shape of a validation message and of a JSON body: an
    object with a list under [validationMessages] whose first element, when
    there is one, is an object with [fieldPath] and a string under
    [description]. *)
Definition documented_message (m : pyval) : bool :=
  match m with
  | VDict kv =>
      match dict_get "fieldPath" kv, dict_get "description" kv with
      | Some _, Some (VStr _) => true
      | _, _ => false
      end
  | _ => false
  end.

Definition documented_body (v : pyval) : bool :=
  match v with
  | VDict kv =>
      match dict_get "validationMessages" kv with
      | Some (VList []) => true
      | Some (VList (m :: _)) => documented_message m
      | _ => false
      end
  | _ => false
  end.

Definition documented_response (r : Response) : bool :=
  negb (status_code r =? 200) ||
  match json r with
  | None => true
  | Some v => documented_body v
  end.

(** The network answers every POST with a response of the documented shape
    or fails with [requests.ConnectionError]. *)
Definition answers_as_documented : Prop :=
  forall (n : nat) (url : string) (body : pyval),
    match requests_post n url body with
    | Ok r => documented_response r = true
    | Raise e => e = ConnectionError
    end.

(** The first name of the table that equals the field path or occurs in
    the description. *)
Definition matching_name (field_path : pyval) (description : string)
    : option string :=
  List.find (fun name => py_eq_str field_path name
                         || str_contains name description)
            (map fst _ERROR_TYPES).

(** An outcome that the loop takes in: the event is valid, or its failure
    is a [DataOutConnectorValueError]. *)
Definition captured (r : Res unit) : bool :=
  match r with
  | Ok _ => true
  | Raise (DataOutConnectorValueError _) => true
  | Raise _ => false
  end.

(** The two lists read off the outcomes of the events, the first event
    having the index [i] and [k] POSTs having been sent before it; the
    first outcome that is not taken in is raised. *)
Fixpoint outcomes_split (self : Destination) (i k : nat) (events : list Dict)
    : Res (list (nat * Dict) * list (nat * ErrorNum)) :=
  match events with
  | [] => Ok ([], [])
  | event :: events' =>
      match event_outcome self k event with
      | Ok _ =>
          rest <-? outcomes_split self (S i) (S k) events' ;;
          Ok ((i, event) :: fst rest, snd rest)
      | Raise (DataOutConnectorValueError error_num) =>
          rest <-? outcomes_split self (S i) (S k) events' ;;
          Ok (fst rest, (i, error_num) :: snd rest)
      | Raise e => Raise e
      end
  end.

End Destination.

End GA4MP.

(** ** Notions used to state the properties *)

Module Reading.
Import Utils.

(** The batch index of an error: [index] of the first element of its
    location path, when the path has one. *)
Definition error_index (error : GoogleAdsError) : option Z :=
  index <$> head (field_path_elements (location error)).

(** The formatted messages of the errors at batch index [i], in the order
    of the errors. *)
Definition messages_at (i : Z) (errs : list GoogleAdsError) : list string :=
  map format_message
      (List.filter (fun e => bool_decide (error_index e = Some i)) errs).

(** The strings of a list put one after the other, nothing in between. *)
Definition concat_messages (msgs : list string) : string :=
  foldr String.append "" msgs.

End Reading.
Export Reading.

(** ** Concrete inputs *)

Module Samples.
Import Utils.

Definition error_at (i : Z) (c m : string) : GoogleAdsError :=
  {| error_code := c; message := m;
     location := {| field_path_elements := [{| index := i |}] |} |}.

(** Three errors at the batch indices 1, 1 and 2. *)
Definition three_errors : GoogleAdsFailure :=
  {| errors := [error_at 1 "A" "msgA"; error_at 1 "B" "msgB";
                error_at 2 "C" "msgC"] |}.

(** A client that decodes every detail to [three_errors]. *)
Definition sample_client : GoogleAdsClient :=
  {| deserialize := fun _ => Ok three_errors |}.

(** A response with code 3 and one detail. *)
Definition failed_response : MutateResponse :=
  {| partial_failure_error :=
       Some {| code := Some 3; details := Some [{| value := "blob" |}] |} |}.

(** A response with code 0 whose details list is not empty. *)
Definition code_zero_response : MutateResponse :=
  {| partial_failure_error :=
       Some {| code := Some 0; details := Some [{| value := "blob" |}] |} |}.

(** A response without the attribute [partial_failure_error]. *)
Definition bare_response : MutateResponse :=
  {| partial_failure_error := None |}.

(** A web destination, an event with every field, a table of known field
    names, the state before the first POST, and networks that give the same
    answer to every POST. *)
Definition firebase : string := "firebase".
Definition gtag : string := "gtag".

Definition error_types : list (string * ErrorNameIDMap) :=
  [("client_id", FIELD_ERROR "client_id");
   ("timestamp_micros", FIELD_ERROR "timestamp_micros");
   ("engagement_time_msec", FIELD_ERROR "engagement_time_msec")].

Definition web : GA4MP.Destination :=
  {| GA4MP.payload_type := VStr "gtag";
     GA4MP.non_personalized_ads := VBool false;
     GA4MP.user_properties := VNone;
     GA4MP.validate_url := "https://www.google-analytics.com/debug/mp/collect" |}.

Definition purchase : Dict :=
  [("client_id", VStr "c1"); ("user_id", VStr "u1");
   ("event_name", VStr "purchase"); ("engagement_time_msec", VInt 500);
   ("session_id", VStr "s1")].

(** The same event without [user_id]. *)
Definition purchase_without_user : Dict :=
  [("client_id", VStr "c1");
   ("event_name", VStr "purchase"); ("engagement_time_msec", VInt 500);
   ("session_id", VStr "s1")].

Definition start : GA4MP.World := {| GA4MP.posts := 0; GA4MP.output := [] |}.

Definition answering (r : GA4MP.Response)
    : nat -> string -> pyval -> Res GA4MP.Response :=
  fun _ _ _ => Ok r.

Definition refusing : nat -> string -> pyval -> Res GA4MP.Response :=
  fun _ _ _ => Raise ConnectionError.

Definition no_messages : GA4MP.Response :=
  {| GA4MP.status_code := 200;
     GA4MP.json := Some (VDict [("validationMessages", VList [])]) |}.

Definition unavailable : GA4MP.Response :=
  {| GA4MP.status_code := 503; GA4MP.json := None |}.

Definition not_found : GA4MP.Response :=
  {| GA4MP.status_code := 404; GA4MP.json := None |}.

Definition not_json : GA4MP.Response :=
  {| GA4MP.status_code := 200; GA4MP.json := None |}.

(** Status 200 with the JSON body [{}]. *)
Definition empty_object : GA4MP.Response :=
  {| GA4MP.status_code := 200; GA4MP.json := Some (VDict []) |}.

Definition message (field_path description : string) : pyval :=
  VDict [("fieldPath", VStr field_path); ("description", VStr description);
         ("validationCode", VStr "VALUE_INVALID")].

Definition with_messages (msgs : list pyval) : GA4MP.Response :=
  {| GA4MP.status_code := 200;
     GA4MP.json := Some (VDict [("validationMessages", VList msgs)]) |}.

(** The first POST is answered with status 503, the second with a
    rejection of [client_id], every later one with an empty list. *)
Definition mixed : nat -> string -> pyval -> Res GA4MP.Response :=
  fun n _ _ =>
    match n with
    | O => Ok unavailable
    | S O => Ok (with_messages [message "client_id" "bad client"])
    | _ => Ok no_messages
    end.

End Samples.

(** ** More of [dags/utils.py] *)

(** *** Operations on [str] *)

(** A character of a string is a code point below 256. *)
Module PyStr.

(** [c.lower()]: the capital letters of ASCII and of Latin-1 move up by 32. *)
Definition lower_char (c : Ascii.ascii) : Ascii.ascii :=
  let n := Ascii.N_of_ascii c in
  if ((65 <=? n) && (n <=? 90)
      || (192 <=? n) && (n <=? 222) && negb (n =? 215))%N
  then Ascii.ascii_of_N (n + 32)
  else c.

(** [s.lower()] *)
Fixpoint lower (s : string) : string :=
  match s with
  | EmptyString => EmptyString
  | String c s' => String (lower_char c) (lower s')
  end.

(** [c.isspace()] *)
Definition is_space (c : Ascii.ascii) : bool :=
  let n := Ascii.N_of_ascii c in
  ((9 <=? n) && (n <=? 13) || (28 <=? n) && (n <=? 32)
   || (n =? 133) || (n =? 160))%N.

(** [s.lstrip()], [s.rstrip()] and [s.strip()] *)
Fixpoint lstrip (s : string) : string :=
  match s with
  | EmptyString => EmptyString
  | String c s' => if is_space c then lstrip s' else s
  end.

Fixpoint rstrip (s : string) : string :=
  match s with
  | EmptyString => EmptyString
  | String c s' =>
      match rstrip s' with
      | EmptyString => if is_space c then EmptyString else String c EmptyString
      | r => String c r
      end
  end.

Definition strip (s : string) : string := rstrip (lstrip s).

(** [s.split(sep)] for a separator of one character. *)
Fixpoint split (sep : Ascii.ascii) (s : string) : list string :=
  match s with
  | EmptyString => [EmptyString]
  | String c s' =>
      if Ascii.eqb c sep then EmptyString :: split sep s'
      else match split sep s' with
           | part :: parts => String c part :: parts
           | [] => [String c EmptyString]
           end
  end.

(** [sep.join(parts)] *)
Fixpoint join (sep : string) (parts : list string) : string :=
  match parts with
  | [] => EmptyString
  | [part] => part
  | part :: parts' => part +:+ sep +:+ join sep parts'
  end.

(** [s.replace(c, "")] for a character [c]. *)
Fixpoint remove_char (c : Ascii.ascii) (s : string) : string :=
  match s with
  | EmptyString => EmptyString
  | String x s' =>
      if Ascii.eqb x c then remove_char c s' else String x (remove_char c s')
  end.

(** The characters ["@"], ["."] and line feed. *)
Definition at_sign : Ascii.ascii := Ascii.ascii_of_N 64.
Definition dot : Ascii.ascii := Ascii.ascii_of_N 46.
Definition line_feed : Ascii.ascii := Ascii.ascii_of_N 10.

(** [c in s] for a character [c]. *)
Fixpoint has_char (c : Ascii.ascii) (s : string) : bool :=
  match s with
  | EmptyString => false
  | String x s' => Ascii.eqb x c || has_char c s'
  end.

End PyStr.

(** *** [ValidationResult] *)

Module Results.

Record ValidationResult : Type := mkValidationResult {
  is_valid : bool;
  messages : list string
}.

(** [RunResult()]: the defaults of the dataclass. *)
Definition RunResult_default : Utils.RunResult :=
  Utils.mkRunResult 0 0 [] false.

(** The results of a list added up from the left, starting from
    [RunResult()]. *)
Definition RunResult_sum (results : list Utils.RunResult) : Utils.RunResult :=
  fold_left Utils.__add__ results RunResult_default.

End Results.

(** *** [GoogleAdsUtils]: configuration and hashing *)

Module GoogleAdsUtils.
Import PyStr Results.

(** The members of the frozenset [_REQUIRED_GOOGLE_ADS_CREDENTIALS]. *)
Definition _REQUIRED_GOOGLE_ADS_CREDENTIALS : list string :=
  ["client_id"; "client_secret"; "developer_token"; "login_customer_id";
   "refresh_token"].

(** [config.get(key, "")] *)
Definition get_or_empty (config : Dict) (key : string) : pyval :=
  match dict_get key config with
  | Some v => v
  | None => VStr ""
  end.

Section Credentials.

(** The order in which the frozenset is iterated. *)
Variable required : list string.

(** [for credential in _REQUIRED_GOOGLE_ADS_CREDENTIALS: ...] with the
    list [missing_fields] built so far. *)
Fixpoint missing_loop (credentials : list string) (config : Dict)
    (missing_fields : list string) : list string :=
  match credentials with
  | [] => missing_fields
  | credential :: credentials' =>
      missing_loop credentials' config
        (if negb (truthy (get_or_empty config credential))
         then missing_fields ++ [credential]
         else missing_fields)
  end.

Definition validate_google_ads_config (config : Dict) : ValidationResult :=
  let missing_fields := missing_loop required config [] in
  match missing_fields with
  | _ :: _ =>
      let error_msg :=
        "Config requires the following fields to be set: "
        +:+ join ", " missing_fields in
      mkValidationResult false [error_msg]
  | [] => mkValidationResult true []
  end.

(** [for credential in _REQUIRED_GOOGLE_ADS_CREDENTIALS: ...] of
    [build_google_ads_client]. *)
Fixpoint credentials_loop (names : list string) (config : Dict)
    (credentials : Dict) : Dict :=
  match names with
  | [] => credentials
  | credential :: names' =>
      credentials_loop names' config
        (dict_set credential (get_or_empty config credential) credentials)
  end.

(** [GoogleAdsClient.load_from_dict] is the library's; [Client] is what it
    returns. *)
Definition build_google_ads_client {Client : Type}
    (load_from_dict : Dict -> string -> Res Client)
    (config : Dict) (version : string) : Res Client :=
  let credentials := credentials_loop required config [] in
  let credentials := dict_set "use_proto_plus" (VBool true) credentials in
  load_from_dict credentials version.

End Credentials.

(** [re.match(r"^(gmail|googlemail)\.com$", domain)]: a match object or
    [None]; [$] also matches before a line feed that ends the string. *)
Definition gmail_match (domain : string) : bool :=
  existsb (String.eqb domain)
    ["gmail.com"; "googlemail.com";
     "gmail.com" +:+ String line_feed EmptyString;
     "googlemail.com" +:+ String line_feed EmptyString].

Section Hashing.

(** [hashlib.sha256(s.encode()).hexdigest()] *)
Variable sha256_hexdigest : string -> string.

Definition normalize_and_hash (s : string) : string :=
  sha256_hexdigest (lower (strip s)).

Definition normalize_and_hash_email_address (email_address : string)
    : Res string :=
  let normalized_email := lower email_address in
  let email_parts := split at_sign normalized_email in
  domain <-? match email_parts !! 1%nat with
             | Some part => Ok part
             | None => Raise IndexError
             end ;;
  let is_gmail := gmail_match domain in
  let normalized_email :=
    if (1 <? length email_parts)%nat && is_gmail then
      let email_parts :=
        match email_parts with
        | part :: parts => remove_char dot part :: parts
        | [] => []
        end in
      join (String at_sign EmptyString) email_parts
    else normalized_email in
  Ok (normalize_and_hash normalized_email).

End Hashing.

End GoogleAdsUtils.

(** *** [DrillMixin]: configuration objects and queries *)

Module DrillMixin.
Import PyStr Results.

(** [key in obj] and [del obj[key]] *)
Definition dict_has (k : string) (d : Dict) : bool :=
  match dict_get k d with
  | Some _ => true
  | None => false
  end.

Fixpoint dict_del (k : string) (d : Dict) : Dict :=
  match d with
  | [] => []
  | (k', v) :: d' =>
      if String.eqb k k' then d' else (k', v) :: dict_del k d'
  end.

(** [obj.get(key) == value] for a string [value]. *)
Definition get_equals (obj : Dict) (key value : string) : bool :=
  match dict_get key obj with
  | Some v => py_eq_str v value
  | None => false
  end.

(** The object is changed in place: the result is the object after the call
    with the value returned. *)
Definition _validate_or_update_config_obj (obj : Dict) (key value : string)
    : Dict * bool :=
  if negb (truthy (VStr value)) then
    if dict_has key obj then (dict_del key obj, true)
    else (obj, false)
  else if get_equals obj key value then (obj, false)
  else (dict_set key (VStr value) obj, true).

(** A cursor of the Drill connection: what [execute(query)] does, and what
    [fetchone()] and [fetchall()] give after [query] was executed. *)
Record Cursor : Type := {
  execute : string -> Res unit;
  fetchone : string -> Res pyval;
  fetchall : string -> Res (list (list pyval))
}.

Definition _TABLE_ALIAS : string := "t".

(** [RuntimeError] *)
Definition RuntimeError : exn := OtherException "RuntimeError".

Definition is_RuntimeError (e : exn) : bool :=
  match e with
  | OtherException name => String.eqb name "RuntimeError"
  | _ => false
  end.

(** [hook] is [DrillHook().get_conn().cursor()]. *)
Definition get_drill_data (hook : Res Cursor) (from_target : string)
    (fields : list string) (offset limit : Z) (unique_id : string)
    : Res (list Dict) :=
  cursor <-? hook ;;
  let table_alias := _TABLE_ALIAS in
  let fields_str :=
    join "," (map (fun field => table_alias +:+ "." +:+ field) fields) in
  let query :=
    "SELECT " +:+ fields_str
    +:+ " FROM " +:+ from_target +:+ " as " +:+ table_alias
    +:+ " ORDER BY " +:+ unique_id
    +:+ " LIMIT " +:+ pretty limit +:+ " OFFSET " +:+ pretty offset in
  match (_ <-? execute cursor query ;;
         rows <-? fetchall cursor query ;;
         Utils._parse_data fields rows) with
  | Ok results => Ok results
  | Raise e => if is_RuntimeError e then Ok [] else Raise e
  end.

(** [format_exc] is [traceback.format_exc()] for the exception caught. *)
Definition validate_drill (format_exc : exn -> string) (hook : Res Cursor)
    (path unique_id : string) : Res ValidationResult :=
  cursor <-? hook ;;
  let query := "SELECT " +:+ unique_id +:+ " FROM " +:+ path in
  match (_ <-? execute cursor query ;;
         row <-? fetchone cursor query ;;
         GA4MP.subscript0 row) with
  | Ok id_value =>
      if negb (truthy id_value) then
        Ok (mkValidationResult false
              ["Column " +:+ unique_id +:+ " could not be find in "
               +:+ path +:+ "."])
      else Ok (mkValidationResult true [])
  | Raise e =>
      Ok (mkValidationResult false
            ["Error validation location `" +:+ path +:+ "`: "
             +:+ format_exc e])
  end.

End DrillMixin.

(** * Properties *)

(** ** [RunResult.__add__] *)

(** C8. Merging two [RunResult]s sums the successful and the failed hits,
    appends the right operand's messages after the left operand's (so the
    merged sequence is as long as both together), and ORs the dry-run
    flags; merging is associative, and commutative on the two counts. *)
Theorem RunResult_add_laws (a b c : Utils.RunResult) :
  Utils.successful_hits (Utils.__add__ a b)
    = Utils.successful_hits a + Utils.successful_hits b
  /\ Utils.failed_hits (Utils.__add__ a b)
    = Utils.failed_hits a + Utils.failed_hits b
  /\ Utils.error_messages (Utils.__add__ a b)
    = Utils.error_messages a ++ Utils.error_messages b
  /\ length (Utils.error_messages (Utils.__add__ a b))
    = (length (Utils.error_messages a) + length (Utils.error_messages b))%nat
  /\ Utils.dry_run (Utils.__add__ a b)
    = Utils.dry_run a || Utils.dry_run b
  /\ Utils.__add__ a (Utils.__add__ b c) = Utils.__add__ (Utils.__add__ a b) c
  /\ Utils.successful_hits (Utils.__add__ a b)
    = Utils.successful_hits (Utils.__add__ b a)
  /\ Utils.failed_hits (Utils.__add__ a b)
    = Utils.failed_hits (Utils.__add__ b a).
Proof.
  destruct a as [sa fa ma da], b as [sb fb mb db], c as [sc fc mc dc].
  unfold Utils.__add__; simpl.
  repeat split; try lia.
  - apply length_app.
  - f_equal; try lia.
    + apply app_assoc.
    + apply orb_assoc.
Qed.

(** ** [GoogleAdsUtils.get_partial_failures] *)

Section PartialFailures.
Import Utils.

Lemma append_cons (x : Ascii.ascii) (a b : string) :
  String x a +:+ b = String x (a +:+ b).
Proof. reflexivity. Qed.

Lemma append_assoc (a b c : string) : (a +:+ b) +:+ c = a +:+ (b +:+ c).
Proof.
  induction a as [|x a IH]; [reflexivity |].
  rewrite !append_cons. f_equal. exact IH.
Qed.

Lemma append_empty_r (a : string) : a +:+ "" = a.
Proof.
  induction a as [|x a IH]; [reflexivity |].
  rewrite append_cons. f_equal. exact IH.
Qed.

Lemma concat_messages_app (l1 l2 : list string) :
  concat_messages (l1 ++ l2) = concat_messages l1 +:+ concat_messages l2.
Proof.
  unfold concat_messages.
  induction l1 as [|m l1 IH]; simpl; [reflexivity |].
  rewrite IH. symmetry. apply append_assoc.
Qed.

Lemma messages_at_app (i : Z) (l1 l2 : list GoogleAdsError) :
  messages_at i (l1 ++ l2) = messages_at i l1 ++ messages_at i l2.
Proof. unfold messages_at. now rewrite List.filter_app, map_app. Qed.

Lemma errors_loop_app (l1 l2 : list GoogleAdsError) (pf : gmap Z string) :
  errors_loop (l1 ++ l2) pf = (pf' <-? errors_loop l1 pf ;; errors_loop l2 pf').
Proof.
  revert pf; induction l1 as [|e l1 IH]; intros pf; simpl; [reflexivity |].
  destruct (field_path_elements (location e)); [reflexivity | apply IH].
Qed.

(** What the inner loop leaves in the map, index by index. *)
Lemma errors_loop_lookup (errs : list GoogleAdsError) :
  forall pf : gmap Z string,
  Forall (fun e => field_path_elements (location e) <> []) errs ->
  exists pf',
    errors_loop errs pf = Ok pf' /\
    forall i, pf' !! i =
      match messages_at i errs with
      | [] => pf !! i
      | ms => Some (default "" (pf !! i) +:+ concat_messages ms)
      end.
Proof.
  induction errs as [|e errs IH]; intros pf Hpath.
  - exists pf. split; [reflexivity | intros i; reflexivity].
  - inversion Hpath as [|? ? He Hrest]; subst.
    simpl. destruct (field_path_elements (location e)) as [|el path] eqn:Hp;
      [congruence |].
    destruct (IH (<[index el := default "" (pf !! index el) +:+ format_message e]> pf) Hrest)
      as (pf' & Hrun & Hlook).
    exists pf'. split; [exact Hrun |].
    assert (Hidx : error_index e = Some (index el)).
    { unfold error_index. rewrite Hp. reflexivity. }
    intros i. rewrite Hlook. unfold messages_at.
    cbn [List.filter].
    destruct (decide (index el = i)) as [<-|Hne].
    + rewrite (bool_decide_eq_true_2 _ Hidx).
      rewrite lookup_insert_eq. cbn [default from_option map]. unfold id.
      destruct (map format_message _) as [|m ms].
      * cbn [concat_messages foldr]. now rewrite append_empty_r.
      * cbn [concat_messages foldr]. now rewrite append_assoc.
    + rewrite bool_decide_eq_false_2 by (rewrite Hidx; congruence).
      now rewrite lookup_insert_ne by exact Hne.
Qed.

(** When every detail decodes, the two loops are one pass over all errors. *)
Lemma details_loop_errors_loop (client : GoogleAdsClient)
    (ds : list ErrorDetail) (failures : list GoogleAdsFailure) :
  Forall2 (fun d f => deserialize client (value d) = Ok f) ds failures ->
  forall pf, details_loop client ds pf
             = errors_loop (concat (map errors failures)) pf.
Proof.
  induction 1 as [|d f ds failures Hd _ IH]; intros pf; simpl; [reflexivity |].
  rewrite Hd. simpl. rewrite errors_loop_app.
  destruct (errors_loop (errors f) pf); simpl; [apply IH | reflexivity].
Qed.

End PartialFailures.

(** C6. When the status code of the partial-failure error is zero, the
    result is the empty mapping, whatever the details list holds (it is not
    read) and whatever the client is. *)
Theorem get_partial_failures_code_zero
    (client : Utils.GoogleAdsClient) (response : Utils.MutateResponse)
    (st : Utils.Status) (out : list Utils.Printed) :
  Utils.partial_failure_error response = Some st ->
  Utils.code st = Some 0 ->
  fst (Utils.get_partial_failures client response out) = Ok ∅.
Proof.
  intros Hpf Hcode. unfold Utils.get_partial_failures.
  rewrite Hpf, Hcode. reflexivity.
Qed.

(** C10. A response without [partial_failure_error], and a response whose
    status code is not zero (or is absent) while [details] is absent or
    empty, both give the empty mapping, and nothing is raised. *)
Theorem get_partial_failures_no_structure
    (client : Utils.GoogleAdsClient) (response : Utils.MutateResponse)
    (out : list Utils.Printed) :
  Utils.partial_failure_error response = None
  \/ (exists st, Utils.partial_failure_error response = Some st
                 /\ Utils.code st <> Some 0
                 /\ (Utils.details st = None \/ Utils.details st = Some [])) ->
  fst (Utils.get_partial_failures client response out) = Ok ∅.
Proof.
  unfold Utils.get_partial_failures.
  intros [Hnone | (st & Hpf & Hcode & Hdet)].
  - rewrite Hnone. reflexivity.
  - rewrite Hpf.
    assert (Hd : default [] (Utils.details st) = []).
    { destruct Hdet as [-> | ->]; reflexivity. }
    destruct (Utils.code st) as [[|p|p]|] eqn:Hc;
      try congruence; rewrite Hd; reflexivity.
Qed.

(** C6 at a response with code 0 and a detail in its list. *)
Lemma get_partial_failures_code_zero_witness :
  fst (Utils.get_partial_failures Samples.sample_client
         Samples.code_zero_response []) = Ok ∅.
Proof.
  apply (get_partial_failures_code_zero Samples.sample_client
           Samples.code_zero_response
           {| Utils.code := Some 0;
              Utils.details := Some [{| Utils.value := "blob" |}] |} []);
    reflexivity.
Defined.

(** C10 at a response without [partial_failure_error]. *)
Lemma get_partial_failures_no_structure_witness :
  fst (Utils.get_partial_failures Samples.sample_client
         Samples.bare_response []) = Ok ∅.
Proof.
  apply (get_partial_failures_no_structure Samples.sample_client
           Samples.bare_response []).
  left. reflexivity.
Defined.

(** C7, as the code has it. When the status code is not zero, every detail
    decodes and every error has a location path, the mapping holds, for
    each batch index that the first path element of some error names, the
    formatted messages ([Code: ..., Error: ...]) of all the errors at that
    index, in their order, one directly after the other with nothing in
    between, and holds no other index. In particular, errors at the indices
    1, 1 and 2 give exactly index 1 with both messages joined and index 2
    with its single message; index 0 is absent. *)
Theorem partial_failures_accumulate :
  (forall (client : Utils.GoogleAdsClient) (response : Utils.MutateResponse)
          (st : Utils.Status) (ds : list Utils.ErrorDetail)
          (failures : list Utils.GoogleAdsFailure) (out : list Utils.Printed),
     Utils.partial_failure_error response = Some st ->
     Utils.code st <> Some 0 ->
     Utils.details st = Some ds ->
     Forall2 (fun d f => Utils.deserialize client (Utils.value d) = Ok f)
             ds failures ->
     Forall (fun e => Utils.field_path_elements (Utils.location e) <> [])
            (concat (map Utils.errors failures)) ->
     exists m : gmap Z string,
       fst (Utils.get_partial_failures client response out) = Ok m /\
       forall i : Z,
         m !! i = match messages_at i (concat (map Utils.errors failures)) with
                  | [] => None
                  | ms => Some (concat_messages ms)
                  end)
  /\
  (forall (client : Utils.GoogleAdsClient) (response : Utils.MutateResponse)
          (st : Utils.Status) (d : Utils.ErrorDetail)
          (eA eB eC : Utils.GoogleAdsError)
          (pA pB pC : list Utils.FieldPathElement) (out : list Utils.Printed),
     Utils.partial_failure_error response = Some st ->
     Utils.code st = Some 3 ->
     Utils.details st = Some [d] ->
     Utils.deserialize client (Utils.value d)
       = Ok {| Utils.errors := [eA; eB; eC] |} ->
     Utils.field_path_elements (Utils.location eA)
       = {| Utils.index := 1 |} :: pA ->
     Utils.field_path_elements (Utils.location eB)
       = {| Utils.index := 1 |} :: pB ->
     Utils.field_path_elements (Utils.location eC)
       = {| Utils.index := 2 |} :: pC ->
     exists m : gmap Z string,
       fst (Utils.get_partial_failures client response out) = Ok m /\
       m = {[ 1 := Utils.format_message eA +:+ Utils.format_message eB;
              2 := Utils.format_message eC ]} /\
       m !! 0 = None).
Proof.
  split.
  - intros client response st ds failures out Hpf Hcode Hdet Hdec Hpath.
    destruct (errors_loop_lookup (concat (map Utils.errors failures)) ∅ Hpath)
      as (m & Hrun & Hlook).
    exists m. split.
    + unfold Utils.get_partial_failures. rewrite Hpf, Hdet.
      assert (Hloop : Utils.details_loop client ds ∅ = Ok m).
      { rewrite (details_loop_errors_loop client ds failures Hdec). exact Hrun. }
      destruct (Utils.code st) as [[|p|p]|] eqn:Hc; try congruence;
        cbn [default from_option]; unfold id, bind, lift, ret, Utils.print;
        rewrite Hloop; reflexivity.
    + intros i. rewrite Hlook, lookup_empty. cbn [default from_option].
      destruct (messages_at i _); reflexivity.
  - intros client response st d eA eB eC pA pB pC out
           Hpf Hcode Hdet Hdec HA HB HC.
    set (fA := Utils.format_message eA).
    set (fB := Utils.format_message eB).
    set (fC := Utils.format_message eC).
    assert (Hrun : fst (Utils.get_partial_failures client response out)
                   = Ok (<[2 := fC]> (<[1 := fA +:+ fB]> (<[1 := fA]> ∅)))).
    { unfold Utils.get_partial_failures. rewrite Hpf, Hcode, Hdet.
      cbn [default from_option]. unfold id, bind, lift, ret, Utils.print.
      cbn [Utils.details_loop]. rewrite Hdec.
      cbn [res_bind Utils.errors Utils.errors_loop].
      rewrite HA, HB, HC. cbn [Utils.index res_bind fst].
      rewrite lookup_empty, lookup_insert_eq.
      rewrite !lookup_insert_ne by lia. rewrite lookup_empty.
      reflexivity. }
    eexists. split; [exact Hrun |]. split.
    + apply map_eq. intros i.
      destruct (decide (i = 1)) as [->|H1]; [now simplify_map_eq |].
      destruct (decide (i = 2)) as [->|H2]; now simplify_map_eq.
    + now simplify_map_eq.
Qed.

(** C7 on the three errors of [Samples.three_errors]. *)
Lemma partial_failures_accumulate_witness :
  exists m : gmap Z string,
    fst (Utils.get_partial_failures Samples.sample_client
           Samples.failed_response []) = Ok m /\
    m = {[ 1 := "Code: A, Error: msgACode: B, Error: msgB";
           2 := "Code: C, Error: msgC" ]} /\
    m !! 0 = None.
Proof.
  apply (proj2 partial_failures_accumulate
           Samples.sample_client Samples.failed_response
           {| Utils.code := Some 3;
              Utils.details := Some [{| Utils.value := "blob" |}] |}
           {| Utils.value := "blob" |}
           (Samples.error_at 1 "A" "msgA") (Samples.error_at 1 "B" "msgB")
           (Samples.error_at 2 "C" "msgC") [] [] [] []);
    reflexivity.
Defined.

(** C7 as the specification states it fails: the two messages at index 1 are joined
    without the separator ["; "]. *)
Lemma partial_failures_no_separator :
  exists m : gmap Z string,
    fst (Utils.get_partial_failures Samples.sample_client
           Samples.failed_response []) = Ok m /\
    m !! 1 = Some "Code: A, Error: msgACode: B, Error: msgB" /\
    m !! 1 <> Some "msgA; msgB" /\
    m !! 1 <> Some ("Code: A, Error: msgA" +:+ "; " +:+ "Code: B, Error: msgB").
Proof.
  eexists. split; [reflexivity |].
  split; [vm_compute; reflexivity |].
  split; vm_compute; discriminate.
Qed.

(** ** [DrillMixin._parse_data] *)

Section FieldMapping.
Import Utils.

Lemma dict_get_set (k k' : string) (v : pyval) (d : Dict) :
  dict_get k (dict_set k' v d)
  = if String.eqb k k' then Some v else dict_get k d.
Proof.
  induction d as [|[k0 v0] d IH]; simpl.
  - reflexivity.
  - destruct (String.eqb_spec k' k0) as [->|Hne]; simpl.
    + destruct (String.eqb k k0); reflexivity.
    + rewrite IH. destruct (String.eqb_spec k k0) as [->|Hne'];
        [| reflexivity].
      destruct (String.eqb_spec k0 k'); [congruence | reflexivity].
Qed.

Lemma dict_set_fresh (k : string) (v : pyval) (d : Dict) :
  k ∉ d.*1 -> dict_set k v d = d ++ [(k, v)].
Proof.
  induction d as [|[k0 v0] d IH]; intros Hk; [reflexivity |].
  rewrite fmap_cons in Hk. cbn [fst dict_set] in *.
  apply not_elem_of_cons in Hk as [Hne Hk].
  destruct (String.eqb_spec k k0); [congruence |].
  now rewrite IH.
Qed.

Lemma dict_set_keys (k : string) (v : pyval) (d : Dict) :
  (dict_set k v d).*1 = if bool_decide (k ∈ d.*1) then d.*1 else d.*1 ++ [k].
Proof.
  induction d as [|[k0 v0] d IH]; [reflexivity |].
  cbn [dict_set].
  destruct (String.eqb_spec k k0) as [->|Hne]; rewrite !fmap_cons; cbn [fst].
  - rewrite bool_decide_eq_true_2 by apply list_elem_of_here. reflexivity.
  - rewrite IH. destruct (decide (k ∈ d.*1)) as [Hin|Hout].
    + rewrite !bool_decide_eq_true_2; auto using list_elem_of_further.
    + rewrite !bool_decide_eq_false_2; auto.
      intros [?|?]%elem_of_cons; congruence.
Qed.

Lemma dict_set_NoDup (k : string) (v : pyval) (d : Dict) :
  NoDup d.*1 -> NoDup (dict_set k v d).*1.
Proof.
  intros Hd. rewrite dict_set_keys. case_bool_decide; [exact Hd |].
  apply NoDup_app. repeat split; auto.
  - intros x Hx Hx'. apply list_elem_of_singleton in Hx'. congruence.
  - apply NoDup_singleton.
Qed.

Lemma dict_set_elem_of (f k : string) (v : pyval) (d : Dict) :
  f ∈ (dict_set k v d).*1 <-> f ∈ d.*1 \/ f = k.
Proof.
  rewrite dict_set_keys. case_bool_decide as Hk.
  - split; [auto | intros [?| ->]; auto].
  - rewrite elem_of_app, list_elem_of_singleton. reflexivity.
Qed.

(** A row that is long enough fills its dictionary. *)
Lemma fill_event_dict_total (event : list pyval) (fields : list string) :
  forall (i : nat) (d : Dict),
  (length fields + i <= length event)%nat ->
  exists d', fill_event_dict fields i event d = Ok d'.
Proof.
  induction fields as [|f fields IH]; intros i d Hlen; simpl in *.
  - eauto.
  - destruct (lookup_lt_is_Some_2 event i) as [v Hv]; [lia |].
    rewrite Hv. apply IH. lia.
Qed.

(** What the filled dictionary holds under each name. *)
Lemma fill_event_dict_get (event : list pyval) (fields : list string) :
  forall (i : nat) (d d' : Dict),
  fill_event_dict fields i event d = Ok d' ->
  (forall f, f ∉ fields -> dict_get f d' = dict_get f d) /\
  (forall j f, fields !! j = Some f -> f ∉ drop (S j) fields ->
               dict_get f d' = event !! (i + j)%nat).
Proof.
  induction fields as [|f0 fields IH]; intros i d d' Hrun; simpl in Hrun.
  - inversion Hrun; subst. split; [reflexivity |].
    intros j f Hj. rewrite lookup_nil in Hj. discriminate.
  - destruct (event !! i) as [v|] eqn:Hv; [| discriminate].
    destruct (IH _ _ _ Hrun) as [Hother Hat]. split.
    + intros f Hf. apply not_elem_of_cons in Hf as [Hne Hf].
      rewrite (Hother f Hf), dict_get_set.
      destruct (String.eqb_spec f f0); [congruence | reflexivity].
    + intros [|j] f Hj Hlast; simpl in Hj, Hlast.
      * inversion Hj; subst f0. rewrite drop_0 in Hlast.
        rewrite (Hother f Hlast), dict_get_set, String.eqb_refl.
        now rewrite Nat.add_0_r.
      * rewrite (Hat j f Hj Hlast). f_equal. lia.
Qed.

(** The names of the filled dictionary. *)
Lemma fill_event_dict_keys (event : list pyval) (fields : list string) :
  forall (i : nat) (d d' : Dict),
  fill_event_dict fields i event d = Ok d' ->
  NoDup d.*1 ->
  NoDup d'.*1 /\ (forall f, f ∈ d'.*1 <-> f ∈ d.*1 \/ f ∈ fields).
Proof.
  induction fields as [|f0 fields IH]; intros i d d' Hrun Hd; simpl in Hrun.
  - inversion Hrun; subst. split; [exact Hd |].
    intros f. rewrite elem_of_nil. tauto.
  - destruct (event !! i) as [v|] eqn:Hv; [| discriminate].
    destruct (IH _ _ _ Hrun (dict_set_NoDup f0 v d Hd)) as [Hnd Hkeys].
    split; [exact Hnd |].
    intros f. rewrite Hkeys, dict_set_elem_of, elem_of_cons. tauto.
Qed.

(** With names that are all different, the dictionary is the list of the
    names paired with the values at their positions. *)
Lemma fill_event_dict_zip (event : list pyval) (fields : list string) :
  forall (i : nat) (d d' : Dict),
  NoDup fields ->
  (forall f, f ∈ fields -> f ∉ d.*1) ->
  fill_event_dict fields i event d = Ok d' ->
  d' = d ++ zip fields (drop i event).
Proof.
  induction fields as [|f0 fields IH]; intros i d d' Hnd Hfresh Hrun;
    simpl in Hrun.
  - inversion Hrun; subst. simpl. now rewrite app_nil_r.
  - destruct (event !! i) as [v|] eqn:Hv; [| discriminate].
    apply NoDup_cons in Hnd as [Hf0 Hnd].
    rewrite (drop_S _ _ _ Hv). simpl.
    rewrite (dict_set_fresh f0 v d) in Hrun
      by (apply Hfresh, list_elem_of_here).
    assert (Hfresh' : forall f, f ∈ fields -> f ∉ (d ++ [(f0, v)]).*1).
    { intros f Hf. rewrite fmap_app, elem_of_app.
      change ([(f0, v)].*1) with [f0]. rewrite list_elem_of_singleton.
      intros [Hin | ->]; [| contradiction].
      apply (Hfresh f); [apply list_elem_of_further, Hf | exact Hin]. }
    rewrite (IH _ _ _ Hnd Hfresh' Hrun).
    now rewrite <- app_assoc.
Qed.

(** The loop over the rows keeps, in order, the dictionaries with a truthy
    value. *)
Lemma rows_loop_filter (fields : list string) (rows : list (list pyval))
    (ms : list Dict) :
  Forall2 (fun row m => fill_event_dict fields 0 row [] = Ok m) rows ms ->
  forall events,
    rows_loop fields rows events
    = Ok (events ++ List.filter (fun m => any (dict_values m)) ms).
Proof.
  induction 1 as [|row m rows ms Hrow _ IH]; intros events; simpl.
  - now rewrite app_nil_r.
  - rewrite Hrow. simpl. rewrite IH.
    destruct (any (dict_values m)); [| reflexivity].
    now rewrite <- app_assoc.
Qed.

End FieldMapping.

(** C9, as the code has it. For a list of field names and rows that are
    each at least as long, [_parse_data] returns, in the order of the rows,
    the mappings of the rows that are kept. The mapping of a row has the
    field names as its keys, each once; a name holds [row[i]] for the last
    position [i] at which it stands in the list, so that with names that
    are all different the mapping is [fields[0]: row[0], ...,
    fields[F-1]: row[F-1]] in this order. A row is dropped exactly when
    every value of its mapping is falsy. *)
Theorem parse_data_field_mapping
    (fields : list string) (rows : list (list pyval)) :
  Forall (fun row => (length fields <= length row)%nat) rows ->
  exists mappings : list Dict,
    Forall2
      (fun row m =>
         NoDup m.*1
         /\ (forall f, f ∈ m.*1 <-> f ∈ fields)
         /\ (forall i f, fields !! i = Some f -> f ∉ drop (S i) fields ->
                         dict_get f m = row !! i)
         /\ (NoDup fields -> m = zip fields row))
      rows mappings
    /\ Utils._parse_data fields rows
       = Ok (List.filter (fun m => existsb truthy (map snd m)) mappings).
Proof.
  intros Hlen.
  assert (Hms : exists ms,
             Forall2 (fun row m => Utils.fill_event_dict fields 0 row [] = Ok m)
                     rows ms).
  { induction Hlen as [|row rows Hrow _ [ms IH]].
    - exists []. constructor.
    - destruct (fill_event_dict_total row fields 0 []) as [m Hm]; [lia |].
      exists (m :: ms). now constructor. }
  destruct Hms as [ms Hms]. exists ms. split.
  - eapply Forall2_impl; [exact Hms |].
    intros row m Hm. cbn beta in Hm.
    destruct (fill_event_dict_keys row fields 0 [] m Hm) as [Hnd Hkeys];
      [apply NoDup_nil_2 |].
    destruct (fill_event_dict_get row fields 0 [] m Hm) as [_ Hat].
    repeat split.
    + exact Hnd.
    + intros Hf. apply Hkeys in Hf as [Hf | Hf]; [| exact Hf].
      now apply elem_of_nil in Hf.
    + intros Hf. apply Hkeys. now right.
    + intros i f Hi Hlast. exact (Hat i f Hi Hlast).
    + intros Hfields.
      apply (fill_event_dict_zip row fields 0 [] m Hfields); [| exact Hm].
      intros f _. apply not_elem_of_nil.
  - unfold Utils._parse_data.
    now rewrite (rows_loop_filter fields rows ms Hms).
Qed.

(** C9 on two rows of three values under two field names; the second row
    is empty. *)
Lemma parse_data_field_mapping_witness :
  exists mappings : list Dict,
    Forall2
      (fun row m =>
         NoDup m.*1
         /\ (forall f, f ∈ m.*1 <-> f ∈ ["id"; "name"])
         /\ (forall i f, ["id"; "name"] !! i = Some f ->
                         f ∉ drop (S i) ["id"; "name"] ->
                         dict_get f m = row !! i)
         /\ (NoDup ["id"; "name"] -> m = zip ["id"; "name"] row))
      [[VInt 7; VStr "ann"; VNone]; [VInt 0; VStr ""; VInt 5]] mappings
    /\ Utils._parse_data ["id"; "name"]
         [[VInt 7; VStr "ann"; VNone]; [VInt 0; VStr ""; VInt 5]]
       = Ok (List.filter (fun m => existsb truthy (map snd m)) mappings).
Proof.
  apply (parse_data_field_mapping ["id"; "name"]
           [[VInt 7; VStr "ann"; VNone]; [VInt 0; VStr ""; VInt 5]]).
  repeat constructor.
Defined.

(** C9 as the specification states it fails when a field name is listed twice: the
    second value replaces the first, so a row whose first value is not empty
    is dropped, and the name does not hold [row[0]]. *)
Lemma parse_data_repeated_name :
  (length ["a"; "a"] <= length [VStr "x"; VStr ""])%nat
  /\ truthy (VStr "x") = true
  /\ Utils._parse_data ["a"; "a"] [[VStr "x"; VStr ""]] = Ok []
  /\ Utils._parse_data ["a"; "a"] [[VStr "x"; VStr "y"]]
     = Ok [[("a", VStr "y")]]
  /\ dict_get "a" [("a", VStr "y")] <> [VStr "x"; VStr "y"] !! 0%nat.
Proof.
  split; [simpl; lia |].
  split; [reflexivity |].
  split; [reflexivity |].
  split; [reflexivity |].
  vm_compute. discriminate.
Qed.

(** The mapper of [ga4mp.py] is another function: its loop keeps every
    row, and as it is written the call of [self.fields] without its
    argument raises [TypeError] for every input. *)
Lemma parse_input_data_raises (rows : list (list pyval)) :
  GA4MP._parse_input_data rows = Raise TypeError.
Proof. reflexivity. Qed.

(** ** [Destination] of [ga4mp.py] *)

Section Validation.
Import GA4MP.

Variable FIREBASE GTAG : string.
Variable _ERROR_TYPES : list (string * ErrorNameIDMap).

Ltac step_on t :=
  destruct t eqn:?; cbn [fst snd posts output]; try (split; reflexivity).

(** Parsing a response sends nothing, and how it ends does not depend on
    the state it starts in. *)
Lemma parse_validate_result_state (event : Dict) (response : Response)
    (w : World) :
  fst (_parse_validate_result _ERROR_TYPES event response w)
    = fst (_parse_validate_result _ERROR_TYPES event response
             {| posts := 0; output := [] |})
  /\ posts (snd (_parse_validate_result _ERROR_TYPES event response w))
     = posts w.
Proof.
  unfold _parse_validate_result.
  cbv [bind lift emit raise ret]. cbn [fst snd posts output].
  step_on (500 <=? status_code response).
  step_on (negb (status_code response =? 200)).
  step_on (json response).
  match goal with |- context [subscript ?v "validationMessages"] =>
    step_on (subscript v "validationMessages") end.
  match goal with |- context [negb (truthy ?v)] =>
    step_on (negb (truthy v)) end.
  match goal with |- context [subscript0 ?v] => step_on (subscript0 v) end.
  match goal with |- context [subscript ?v "fieldPath"] =>
    step_on (subscript v "fieldPath") end.
  match goal with |- context [subscript ?v "description"] =>
    step_on (subscript v "description") end.
  match goal with |- context [error_types_loop ?t ?n ?f ?d] =>
    step_on (error_types_loop t n f d) end.
Qed.

(** A name of the table has an entry. *)
Lemma table_get_key (name : string) (table : list (string * ErrorNameIDMap)) :
  In name (map fst table) -> exists e, table_get name table = Some e.
Proof.
  induction table as [|[k e] table IH]; cbn; [tauto |].
  intros [-> | Hin].
  - rewrite String.eqb_refl. eauto.
  - destruct (String.eqb name k); eauto.
Qed.

(** With a string for the description, the loop over the table stops at
    the first name that equals the field path or occurs in the
    description. *)
Lemma error_types_loop_find (names : list string) (field_path : pyval)
    (description : string) :
  error_types_loop _ERROR_TYPES names field_path (VStr description)
  = match List.find (fun name => py_eq_str field_path name
                                 || str_contains name description) names with
    | Some name =>
        match table_get name _ERROR_TYPES with
        | Some e => Raise (DataOutConnectorValueError (Member e))
        | None => Raise (KeyError (VStr name))
        end
    | None => Ok tt
    end.
Proof.
  induction names as [|name names IH]; cbn [error_types_loop List.find];
    [reflexivity |].
  unfold contained_in.
  destruct (py_eq_str field_path name); cbn [res_bind orb]; [reflexivity |].
  destruct (str_contains name description); [reflexivity | exact IH].
Qed.

Lemma matching_name_entry (field_path : pyval) (description name : string) :
  matching_name _ERROR_TYPES field_path description = Some name ->
  exists e, table_get name _ERROR_TYPES = Some e
            /\ (py_eq_str field_path name = true
                \/ str_contains name description = true).
Proof.
  unfold matching_name. intros H. apply List.find_some in H as [Hin Hp].
  destruct (table_get_key name _ERROR_TYPES Hin) as [e He].
  exists e. split; [exact He |]. now apply orb_true_iff.
Qed.

(** Parsing a status-200 body whose list of messages is not empty. *)
Lemma parse_first_message (event : Dict) (response : Response)
    (body message : Dict) (rest : list pyval) (field_path : pyval)
    (description : string) (w : World) :
  status_code response = 200 ->
  json response = Some (VDict body) ->
  dict_get "validationMessages" body = Some (VList (VDict message :: rest)) ->
  dict_get "fieldPath" message = Some field_path ->
  dict_get "description" message = Some (VStr description) ->
  _parse_validate_result _ERROR_TYPES event response w
  = match matching_name _ERROR_TYPES field_path description with
    | Some name =>
        match table_get name _ERROR_TYPES with
        | Some e =>
            (Raise (DataOutConnectorValueError (Member e)),
             {| posts := posts w;
                output := output w ++ [Print_validated_event event] |})
        | None =>
            (Raise (KeyError (VStr name)),
             {| posts := posts w;
                output := output w ++ [Print_validated_event event] |})
        end
    | None =>
        (Raise (DataOutConnectorValueError
                  (Member GA4_HOOK_ERROR_INVALID_VALUES)),
         {| posts := posts w;
            output := (output w ++ [Print_validated_event event])
                      ++ [Logging_error field_path (VStr description)] |})
    end.
Proof.
  intros Hs Hj Hm Hf Hd.
  unfold _parse_validate_result, matching_name.
  cbv [bind lift emit raise ret]. rewrite Hs, Hj. cbn [Z.leb Z.eqb negb Z.compare Pos.compare Pos.compare_cont Pos.eqb].
  unfold subscript, getitem. rewrite Hm. cbn [truthy negb subscript0].
  rewrite Hf, Hd. rewrite error_types_loop_find.
  destruct (List.find _ _) as [name|]; [| reflexivity].
  destruct (table_get name _ERROR_TYPES); reflexivity.
Qed.

(** A response of the documented shape is parsed to an outcome that the
    loop takes in. *)
Lemma parse_documented (event : Dict) (response : Response) (w : World) :
  documented_response response = true ->
  captured (fst (_parse_validate_result _ERROR_TYPES event response w)) = true.
Proof.
  intros Hdoc.
  destruct (Z.eq_dec (status_code response) 200) as [Hs | Hs].
  - unfold documented_response in Hdoc. rewrite Hs in Hdoc. cbn in Hdoc.
    destruct (json response) as [v|] eqn:Hj.
    + destruct v as [| | | | |body]; try discriminate. cbn in Hdoc.
      destruct (dict_get "validationMessages" body) as [[| | | |msgs|]|] eqn:Hm;
        try discriminate.
      destruct msgs as [|m rest].
      * unfold _parse_validate_result.
        cbv [bind lift emit raise ret]. rewrite Hs, Hj. cbn.
        unfold getitem. rewrite Hm. reflexivity.
      * destruct m as [| | | | |message]; try discriminate. cbn in Hdoc.
        destruct (dict_get "fieldPath" message) as [fp|] eqn:Hf;
          [| discriminate].
        destruct (dict_get "description" message) as [[| | |d| |]|] eqn:Hd;
          try discriminate.
        rewrite (parse_first_message event response body message rest fp d w
                   Hs Hj Hm Hf Hd).
        destruct (matching_name _ERROR_TYPES fp d) as [name|] eqn:Hn;
          [| reflexivity].
        destruct (matching_name_entry fp d name Hn) as (e & -> & _).
        reflexivity.
    + unfold _parse_validate_result.
      cbv [bind lift emit raise ret]. rewrite Hs, Hj. reflexivity.
  - unfold _parse_validate_result.
    cbv [bind lift emit raise ret]. cbn [fst].
    destruct (500 <=? status_code response); [reflexivity |].
    destruct (Z.eqb_spec (status_code response) 200); [contradiction |].
    reflexivity.
Qed.

Variable requests_post : nat -> string -> pyval -> Res Response.

Abbreviation run_validate := (validate _ERROR_TYPES requests_post).
Abbreviation outcome_of := (event_outcome FIREBASE GTAG _ERROR_TYPES requests_post).
Abbreviation split_of := (outcomes_split FIREBASE GTAG _ERROR_TYPES requests_post).
Abbreviation loop := (events_loop FIREBASE GTAG _ERROR_TYPES requests_post).

(** Validating an event sends one POST; how it ends depends on the state
    only through the number of POSTs sent before. *)
Lemma validate_run (self : Destination) (event payload : Dict) (w : World) :
  fst (run_validate self event payload w)
    = validation _ERROR_TYPES requests_post self (posts w) event payload
  /\ posts (snd (run_validate self event payload w)) = S (posts w).
Proof.
  unfold validation, validate, _send_validate_request, bind.
  cbn [posts output].
  destruct (requests_post (posts w) _ _) as [r|e].
  - destruct (parse_validate_result_state event r
                {| posts := S (posts w); output := output w |}) as [Hw Hp].
    destruct (parse_validate_result_state event r
                {| posts := S (posts w); output := [] |}) as [H0 _].
    rewrite Hw, H0, Hp. split; reflexivity.
  - destruct e; split; reflexivity.
Qed.

(** The payload builder raises nothing but [KeyError]. *)
Lemma build_payload_raise (self : Destination) (event : Dict) (e : exn) :
  build_payload FIREBASE GTAG self event = Raise e ->
  exists k, e = KeyError (VStr k).
Proof.
  unfold build_payload, getitem, res_bind.
  repeat match goal with
         | |- context [match dict_get ?k event with _ => _ end] =>
             destruct (dict_get k event)
         | |- context [if py_eq_str ?a ?b then _ else _] =>
             destruct (py_eq_str a b)
         end;
    intros H; inversion H; eauto.
Qed.

(** An event with the fields that are read has a payload. *)
Lemma build_payload_ok (self : Destination) (event : Dict) :
  has_fields FIREBASE GTAG self event = true ->
  exists payload, build_payload FIREBASE GTAG self event = Ok payload.
Proof.
  unfold has_fields, required_fields, build_payload, getitem, res_bind.
  destruct (py_eq_str (payload_type self) FIREBASE);
    [| destruct (py_eq_str (payload_type self) GTAG)];
    cbn [app forallb]; intros H;
    repeat match goal with
           | |- context [match dict_get ?k event with _ => _ end] =>
               destruct (dict_get k event)
           end;
    cbn in H; try discriminate; eauto.
Qed.

(** The loop returns or raises what the outcomes of its events give. *)
Lemma events_loop_outcomes (self : Destination) (events : list Dict) :
  forall (i : nat) (valid : list (nat * Dict))
         (invalid : list (nat * ErrorNum)) (w : World),
  fst (loop self i events valid invalid w)
  = (rest <-? split_of self i (posts w) events ;;
     Ok (valid ++ fst rest, invalid ++ snd rest)).
Proof.
  induction events as [|event events IH]; intros i valid invalid w.
  - cbn. now rewrite !app_nil_r.
  - cbn [events_loop outcomes_split]. unfold event_outcome.
    unfold bind at 1. unfold lift at 1.
    destruct (build_payload FIREBASE GTAG self event) as [payload|e] eqn:Hb.
    + cbn [res_bind]. unfold bind at 1. unfold try_block at 1.
      fold (run_validate self event payload).
      destruct (validate_run self event payload w) as [Hout Hposts].
      destruct (run_validate self event payload w) as [r w'].
      cbn [fst snd] in Hout, Hposts. rewrite <- Hout.
      destruct r as [[]|e].
      * rewrite IH, Hposts.
        destruct (split_of self (S i) (S (posts w)) events) as [[v inv]|x];
          cbn [res_bind fst snd]; [| reflexivity].
        now rewrite <- app_assoc.
      * destruct e; try reflexivity.
        rewrite IH, Hposts.
        destruct (split_of self (S i) (S (posts w)) events) as [[v inv]|x];
          cbn [res_bind fst snd]; [| reflexivity].
        now rewrite <- app_assoc.
    + cbn [res_bind fst].
      destruct (build_payload_raise self event e Hb) as [k ->]. reflexivity.
Qed.

(** One round of [outcomes_split], by the outcome of the first event. *)
Lemma split_cons_inv (self : Destination) (event : Dict) (events : list Dict)
    (i k : nat) (v : list (nat * Dict)) (inv : list (nat * ErrorNum)) :
  split_of self i k (event :: events) = Ok (v, inv) ->
  exists v' inv',
    split_of self (S i) (S k) events = Ok (v', inv') /\
    ((outcome_of self k event = Ok tt /\ v = (i, event) :: v' /\ inv = inv')
     \/ (exists n, outcome_of self k event
                   = Raise (DataOutConnectorValueError n)
                   /\ v = v' /\ inv = (i, n) :: inv')).
Proof.
  cbn [outcomes_split].
  destruct (outcome_of self k event) as [[]|e].
  - destruct (split_of self (S i) (S k) events) as [[v' inv']|x];
      cbn [res_bind fst snd]; intros H; [| discriminate].
    exists v', inv'. inversion H. split; [reflexivity |]. left. auto.
  - destruct e; try discriminate.
    destruct (split_of self (S i) (S k) events) as [[v' inv']|x];
      cbn [res_bind fst snd]; intros H; [| discriminate].
    exists v', inv'. inversion H. split; [reflexivity |]. right. eauto.
Qed.

(** The valid list holds exactly the events whose outcome is [Ok], each
    with its index. *)
Lemma split_valid (self : Destination) (events : list Dict) :
  forall (i k : nat) (v : list (nat * Dict)) (inv : list (nat * ErrorNum)),
  split_of self i k events = Ok (v, inv) ->
  forall j e,
    (j, e) ∈ v <->
    exists m, j = (i + m)%nat /\ events !! m = Some e
              /\ outcome_of self (k + m) e = Ok tt.
Proof.
  induction events as [|event events IH]; intros i k v inv Hs j e.
  - inversion Hs; subst. split; [intros H; now apply elem_of_nil in H |].
    intros (m & _ & Hm & _). now rewrite lookup_nil in Hm.
  - destruct (split_cons_inv _ _ _ _ _ _ _ Hs)
      as (v' & inv' & Hrest & [(Ho & -> & ->) | (n & Ho & -> & ->)]);
      specialize (IH _ _ _ _ Hrest j e).
    + rewrite elem_of_cons, IH. split.
      * intros [Heq | (m & -> & Hm & Hom)].
        -- inversion Heq; subst. exists 0%nat.
           rewrite !Nat.add_0_r. auto.
        -- exists (S m). rewrite !Nat.add_succ_r. auto.
      * intros ([|m] & -> & Hm & Hom).
        -- left. cbn in Hm. inversion Hm; subst. now rewrite Nat.add_0_r.
        -- right. exists m. rewrite !Nat.add_succ_r in *. auto.
    + rewrite IH. split.
      * intros (m & -> & Hm & Hom).
        exists (S m). rewrite !Nat.add_succ_r. auto.
      * intros ([|m] & -> & Hm & Hom).
        -- cbn in Hm. inversion Hm; subst. rewrite Nat.add_0_r in Hom.
           congruence.
        -- exists m. rewrite !Nat.add_succ_r in *. auto.
Qed.

(** The invalid list holds exactly the events whose outcome is a
    [DataOutConnectorValueError], each index with the [error_num] raised. *)
Lemma split_invalid (self : Destination) (events : list Dict) :
  forall (i k : nat) (v : list (nat * Dict)) (inv : list (nat * ErrorNum)),
  split_of self i k events = Ok (v, inv) ->
  forall j n,
    (j, n) ∈ inv <->
    exists m e, j = (i + m)%nat /\ events !! m = Some e
                /\ outcome_of self (k + m) e
                   = Raise (DataOutConnectorValueError n).
Proof.
  induction events as [|event events IH]; intros i k v inv Hs j n.
  - inversion Hs; subst. split; [intros H; now apply elem_of_nil in H |].
    intros (m & e & _ & Hm & _). now rewrite lookup_nil in Hm.
  - destruct (split_cons_inv _ _ _ _ _ _ _ Hs)
      as (v' & inv' & Hrest & [(Ho & -> & ->) | (n0 & Ho & -> & ->)]);
      specialize (IH _ _ _ _ Hrest j n).
    + rewrite IH. split.
      * intros (m & e & -> & Hm & Hom).
        exists (S m), e. rewrite !Nat.add_succ_r. auto.
      * intros ([|m] & e & -> & Hm & Hom).
        -- cbn in Hm. inversion Hm; subst. rewrite Nat.add_0_r in Hom.
           congruence.
        -- exists m, e. rewrite !Nat.add_succ_r in *. auto.
    + rewrite elem_of_cons, IH. split.
      * intros [Heq | (m & e & -> & Hm & Hom)].
        -- inversion Heq; subst. exists 0%nat, event.
           rewrite !Nat.add_0_r. auto.
        -- exists (S m), e. rewrite !Nat.add_succ_r. auto.
      * intros ([|m] & e & -> & Hm & Hom).
        -- left. cbn in Hm. inversion Hm; subst.
           rewrite Nat.add_0_r in *. congruence.
        -- right. exists m, e. rewrite !Nat.add_succ_r in *. auto.
Qed.

(** Both lists are in ascending order of index, and together they are as
    long as the batch. *)
Lemma split_sorted (self : Destination) (events : list Dict) :
  forall (i k : nat) (v : list (nat * Dict)) (inv : list (nat * ErrorNum)),
  split_of self i k events = Ok (v, inv) ->
  StronglySorted lt v.*1 /\ StronglySorted lt inv.*1
  /\ (length v + length inv = length events)%nat.
Proof.
  induction events as [|event events IH]; intros i k v inv Hs.
  - inversion Hs; subst. repeat split; constructor.
  - destruct (split_cons_inv _ _ _ _ _ _ _ Hs)
      as (v' & inv' & Hrest & [(Ho & -> & ->) | (n0 & Ho & -> & ->)]);
      destruct (IH _ _ _ _ Hrest) as (Hv & Hinv & Hlen).
    + repeat split; [| exact Hinv | cbn [length]; lia].
      rewrite fmap_cons. constructor; [exact Hv |].
      apply Forall_forall. intros j Hj.
      apply list_elem_of_fmap in Hj as ([j' e] & -> & Hin).
      apply (split_valid _ _ _ _ _ _ Hrest) in Hin as (m & -> & _).
      cbn. lia.
    + repeat split; [exact Hv | | cbn [length]; lia].
      rewrite fmap_cons. constructor; [exact Hinv |].
      apply Forall_forall. intros j Hj.
      apply list_elem_of_fmap in Hj as ([j' e] & -> & Hin).
      apply (split_invalid _ _ _ _ _ _ Hrest) in Hin as (m & e' & -> & _).
      cbn. lia.
Qed.

(** When every outcome is taken in, the lists are returned. *)
Lemma split_total (self : Destination) (events : list Dict) :
  forall (i k : nat),
  (forall m e, events !! m = Some e ->
               captured (outcome_of self (k + m) e) = true) ->
  exists v inv, split_of self i k events = Ok (v, inv).
Proof.
  induction events as [|event events IH]; intros i k Hc.
  - exists [], []. reflexivity.
  - cbn [outcomes_split].
    destruct (IH (S i) (S k)) as (v & inv & Hrest).
    { intros m e Hm. specialize (Hc (S m) e Hm).
      now rewrite Nat.add_succ_r in Hc. }
    specialize (Hc 0%nat event eq_refl). rewrite Nat.add_0_r in Hc.
    rewrite Hrest.
    destruct (outcome_of self k event) as [[]|e]; [eauto |].
    destruct e; try discriminate. eauto.
Qed.

(** An outcome that is not taken in is raised, and it is never a
    [DataOutConnectorValueError]. *)
Lemma split_raise (self : Destination) (events : list Dict) :
  forall (i k : nat) (x : exn),
  split_of self i k events = Raise x ->
  (forall n, x <> DataOutConnectorValueError n)
  /\ exists m e, events !! m = Some e
                 /\ outcome_of self (k + m) e = Raise x.
Proof.
  induction events as [|event events IH]; intros i k x Hs; [discriminate |].
  cbn [outcomes_split] in Hs.
  assert (Hrest : forall y, split_of self (S i) (S k) events = Raise y ->
            (forall n, y <> DataOutConnectorValueError n)
            /\ exists m e, (event :: events) !! m = Some e
                           /\ outcome_of self (k + m) e = Raise y).
  { intros y Hy. destruct (IH _ _ _ Hy) as (Hn & m & e & Hm & Ho).
    split; [exact Hn |]. exists (S m), e. rewrite Nat.add_succ_r. auto. }
  destruct (outcome_of self k event) as [[]|e] eqn:Ho.
  - destruct (split_of self (S i) (S k) events) as [[v inv]|y];
      [discriminate |].
    inversion Hs; subst. now apply Hrest.
  - destruct e;
      try (inversion Hs; subst; split; [discriminate |];
           exists 0%nat, event; rewrite Nat.add_0_r; now auto).
    destruct (split_of self (S i) (S k) events) as [[v inv]|y];
      [discriminate |].
    inversion Hs; subst. now apply Hrest.
Qed.

(** How validation ends, by what the network does with the POST. *)
Lemma validation_answer (self : Destination) (k : nat) (event payload : Dict) :
  validation _ERROR_TYPES requests_post self k event payload
  = match requests_post k (validate_url self)
            (VDict (dict_set "validationBehavior"
                      (VStr "ENFORCE_RECOMMENDATIONS") payload)) with
    | Ok r => fst (_parse_validate_result _ERROR_TYPES event r
                     {| posts := 0; output := [] |})
    | Raise ConnectionError =>
        Raise (DataOutConnectorValueError
                 (Member RETRIABLE_GA4_HOOK_ERROR_HTTP_ERROR))
    | Raise e => Raise e
    end.
Proof.
  unfold validation, validate, _send_validate_request, bind.
  cbn [posts output].
  destruct (requests_post k _ _) as [r|e].
  - apply parse_validate_result_state.
  - destruct e; reflexivity.
Qed.

(** On a network that answers as documented, an event with its fields
    has an outcome that the loop takes in. *)
Lemma documented_captured (self : Destination) (k : nat) (event : Dict) :
  answers_as_documented requests_post ->
  has_fields FIREBASE GTAG self event = true ->
  captured (outcome_of self k event) = true.
Proof.
  intros Hnet Hf. unfold event_outcome.
  destruct (build_payload_ok self event Hf) as [payload ->].
  cbn [res_bind]. rewrite validation_answer.
  specialize (Hnet k (validate_url self)
                (VDict (dict_set "validationBehavior"
                          (VStr "ENFORCE_RECOMMENDATIONS") payload))).
  destruct (requests_post k _ _) as [r|e].
  - now apply parse_documented.
  - subst e. reflexivity.
Qed.

(** A batch of one event. *)
Lemma single_event (self : Destination) (event payload : Dict) (w : World) :
  build_payload FIREBASE GTAG self event = Ok payload ->
  fst (_get_valid_and_invalid_events FIREBASE GTAG _ERROR_TYPES requests_post
         self [event] w)
  = match validation _ERROR_TYPES requests_post self (posts w) event payload with
    | Ok _ => Ok ([(0%nat, event)], [])
    | Raise (DataOutConnectorValueError n) => Ok ([], [(0%nat, n)])
    | Raise e => Raise e
    end.
Proof.
  intros Hb. unfold _get_valid_and_invalid_events.
  rewrite events_loop_outcomes. cbn [outcomes_split].
  unfold event_outcome. rewrite Hb. cbn [res_bind].
  destruct (validation _ _ _ _ _ _) as [[]|e]; [reflexivity |].
  destruct e; reflexivity.
Qed.

End Validation.

(** A batch of one event whose POST is answered with [response] is
    classified by how parsing [response] ends. *)
Lemma answered_event (FIREBASE GTAG : string)
    (table : list (string * ErrorNameIDMap)) (self : GA4MP.Destination)
    (event : Dict) (response : GA4MP.Response) (w : GA4MP.World) :
  GA4MP.has_fields FIREBASE GTAG self event = true ->
  fst (GA4MP._get_valid_and_invalid_events FIREBASE GTAG table
         (fun _ _ _ => Ok response) self [event] w)
  = match fst (GA4MP._parse_validate_result table event response w) with
    | Ok _ => Ok ([(0%nat, event)], [])
    | Raise (DataOutConnectorValueError n) => Ok ([], [(0%nat, n)])
    | Raise e => Raise e
    end.
Proof.
  intros Hf.
  destruct (build_payload_ok FIREBASE GTAG self event Hf) as [payload Hb].
  rewrite (single_event FIREBASE GTAG table _ self event payload w Hb).
  rewrite validation_answer.
  destruct (parse_validate_result_state table event response w) as [-> _].
  reflexivity.
Qed.

(** A batch of one event whose POST is answered with a status of 500 or
    more. *)
Lemma server_error_event (FIREBASE GTAG : string)
    (table : list (string * ErrorNameIDMap)) (self : GA4MP.Destination)
    (event : Dict) (response : GA4MP.Response) (w : GA4MP.World) :
  GA4MP.has_fields FIREBASE GTAG self event = true ->
  500 <= GA4MP.status_code response ->
  fst (GA4MP._get_valid_and_invalid_events FIREBASE GTAG table
         (fun _ _ _ => Ok response) self [event] w)
  = Ok ([], [(0%nat, Member RETRIABLE_GA4_HOOK_ERROR_HTTP_ERROR)]).
Proof.
  intros Hf Hs. rewrite (answered_event _ _ _ _ _ _ _ Hf).
  unfold GA4MP._parse_validate_result.
  cbv [bind lift GA4MP.emit raise ret]. cbn [fst].
  apply Z.leb_le in Hs. rewrite Hs. reflexivity.
Qed.

(** C2. A response with a status of 500 or more makes the event invalid
    with [RETRIABLE_GA4_HOOK_ERROR_HTTP_ERROR]; a status strictly between
    200 and 500 makes it invalid with [NON_RETRIABLE_ERROR_EVENT_NOT_SENT];
    status 200 with a body that is not JSON makes it invalid with
    [RETRIABLE_GA4_HOOK_ERROR_HTTP_ERROR] again (given as the member's
    [.value]). [parsed] is what [_parse_validate_result] raises,
    [classified] what [_get_valid_and_invalid_events] returns for the
    batch of this one event. *)
Theorem http_status_classification (FIREBASE GTAG : string)
    (table : list (string * ErrorNameIDMap)) (self : GA4MP.Destination)
    (event : Dict) (response : GA4MP.Response) (w : GA4MP.World) :
  GA4MP.has_fields FIREBASE GTAG self event = true ->
  let parsed := fst (GA4MP._parse_validate_result table event response w) in
  let classified :=
    fst (GA4MP._get_valid_and_invalid_events FIREBASE GTAG table
           (fun _ _ _ => Ok response) self [event] w) in
  (500 <= GA4MP.status_code response ->
     parsed = Raise (DataOutConnectorValueError
                       (Member RETRIABLE_GA4_HOOK_ERROR_HTTP_ERROR))
     /\ classified = Ok ([], [(0%nat, Member RETRIABLE_GA4_HOOK_ERROR_HTTP_ERROR)]))
  /\ (200 < GA4MP.status_code response < 500 ->
     parsed = Raise (DataOutConnectorValueError
                       (Member NON_RETRIABLE_ERROR_EVENT_NOT_SENT))
     /\ classified = Ok ([], [(0%nat, Member NON_RETRIABLE_ERROR_EVENT_NOT_SENT)]))
  /\ (GA4MP.status_code response = 200 -> GA4MP.json response = None ->
     exists n,
       parsed = Raise (DataOutConnectorValueError n)
       /\ classified = Ok ([], [(0%nat, n)])
       /\ n = MemberValue RETRIABLE_GA4_HOOK_ERROR_HTTP_ERROR
       /\ error_kind n = RETRIABLE_GA4_HOOK_ERROR_HTTP_ERROR).
Proof.
  intros Hf parsed classified.
  assert (Hc : classified
               = match parsed with
                 | Ok _ => Ok ([(0%nat, event)], [])
                 | Raise (DataOutConnectorValueError n) => Ok ([], [(0%nat, n)])
                 | Raise e => Raise e
                 end)
    by (apply answered_event; exact Hf).
  assert (Hp : parsed
               = fst (GA4MP._parse_validate_result table event response w))
    by reflexivity.
  unfold GA4MP._parse_validate_result in Hp.
  cbv [bind lift GA4MP.emit raise ret] in Hp. cbn [fst] in Hp.
  split; [| split].
  - intros Hs. apply Z.leb_le in Hs. rewrite Hs in Hp.
    split; [exact Hp |]. rewrite Hc, Hp. reflexivity.
  - intros [Hlo Hhi]. apply Z.leb_gt in Hhi. rewrite Hhi in Hp.
    destruct (Z.eqb_spec (GA4MP.status_code response) 200); [lia |].
    split; [exact Hp |]. rewrite Hc, Hp. reflexivity.
  - intros Hs Hj. rewrite Hs, Hj in Hp. cbn in Hp.
    eexists. split; [exact Hp |]. split; [| split; reflexivity].
    rewrite Hc, Hp. reflexivity.
Qed.

(** C2 on the sample event: a 503, a 404 and a body that is not JSON. *)
Lemma http_status_classification_witness :
  fst (GA4MP._get_valid_and_invalid_events Samples.firebase Samples.gtag
         Samples.error_types (fun _ _ _ => Ok Samples.unavailable)
         Samples.web [Samples.purchase] Samples.start)
  = Ok ([], [(0%nat, Member RETRIABLE_GA4_HOOK_ERROR_HTTP_ERROR)])
  /\ fst (GA4MP._get_valid_and_invalid_events Samples.firebase Samples.gtag
            Samples.error_types (fun _ _ _ => Ok Samples.not_found)
            Samples.web [Samples.purchase] Samples.start)
     = Ok ([], [(0%nat, Member NON_RETRIABLE_ERROR_EVENT_NOT_SENT)])
  /\ exists n,
       fst (GA4MP._get_valid_and_invalid_events Samples.firebase Samples.gtag
              Samples.error_types (fun _ _ _ => Ok Samples.not_json)
              Samples.web [Samples.purchase] Samples.start)
       = Ok ([], [(0%nat, n)])
       /\ error_kind n = RETRIABLE_GA4_HOOK_ERROR_HTTP_ERROR.
Proof.
  split; [| split].
  - apply (proj1 (http_status_classification Samples.firebase Samples.gtag
                    Samples.error_types Samples.web Samples.purchase
                    Samples.unavailable Samples.start eq_refl)).
    simpl. lia.
  - apply (proj1 (proj2 (http_status_classification Samples.firebase
                    Samples.gtag Samples.error_types Samples.web
                    Samples.purchase Samples.not_found Samples.start eq_refl))).
    simpl. lia.
  - destruct (proj2 (proj2 (http_status_classification Samples.firebase
                    Samples.gtag Samples.error_types Samples.web
                    Samples.purchase Samples.not_json Samples.start eq_refl))
                eq_refl eq_refl) as (n & _ & Hc & _ & Hk).
    exists n. split; [exact Hc | exact Hk].
Defined.

(** C3, as the code has it. For a status-200 response whose JSON body has
    a list under [validationMessages]: with the empty list the event is
    valid; with a list that is not empty only its first message is read,
    and when this message has a [fieldPath] and a string under
    [description], the event is invalid with the entry of the first name of
    [_ERROR_TYPES] that equals the message's [fieldPath] or occurs in its
    [description]; when no name does, it is invalid with
    [GA4_HOOK_ERROR_INVALID_VALUES], and the [fieldPath] and the
    [description] are logged. *)
Theorem validation_messages_classification (FIREBASE GTAG : string)
    (table : list (string * ErrorNameIDMap)) (self : GA4MP.Destination)
    (event : Dict) (response : GA4MP.Response) (body : Dict)
    (msgs : list pyval) (w : GA4MP.World) :
  GA4MP.has_fields FIREBASE GTAG self event = true ->
  GA4MP.status_code response = 200 ->
  GA4MP.json response = Some (VDict body) ->
  dict_get "validationMessages" body = Some (VList msgs) ->
  let parsed := GA4MP._parse_validate_result table event response w in
  let classified :=
    fst (GA4MP._get_valid_and_invalid_events FIREBASE GTAG table
           (fun _ _ _ => Ok response) self [event] w) in
  let printed :=
    GA4MP.output w ++ [GA4MP.Print_validated_event event] in
  (msgs = [] ->
     parsed = (Ok tt, {| GA4MP.posts := GA4MP.posts w;
                         GA4MP.output := printed |})
     /\ classified = Ok ([(0%nat, event)], []))
  /\ (forall (message : Dict) (rest : list pyval) (field_path : pyval)
             (description : string),
        msgs = VDict message :: rest ->
        dict_get "fieldPath" message = Some field_path ->
        dict_get "description" message = Some (VStr description) ->
        match GA4MP.matching_name table field_path description with
        | Some name =>
            exists e,
              GA4MP.table_get name table = Some e
              /\ (py_eq_str field_path name = true
                  \/ str_contains name description = true)
              /\ parsed = (Raise (DataOutConnectorValueError (Member e)),
                           {| GA4MP.posts := GA4MP.posts w;
                              GA4MP.output := printed |})
              /\ classified = Ok ([], [(0%nat, Member e)])
        | None =>
            (forall name, In name (map fst table) ->
                          py_eq_str field_path name = false
                          /\ str_contains name description = false)
            /\ parsed = (Raise (DataOutConnectorValueError
                                  (Member GA4_HOOK_ERROR_INVALID_VALUES)),
                         {| GA4MP.posts := GA4MP.posts w;
                            GA4MP.output :=
                              printed ++ [GA4MP.Logging_error field_path
                                            (VStr description)] |})
            /\ classified
               = Ok ([], [(0%nat, Member GA4_HOOK_ERROR_INVALID_VALUES)])
        end).
Proof.
  intros Hf Hs Hj Hm parsed classified printed.
  assert (Hc : classified
               = match fst parsed with
                 | Ok _ => Ok ([(0%nat, event)], [])
                 | Raise (DataOutConnectorValueError n) => Ok ([], [(0%nat, n)])
                 | Raise e => Raise e
                 end)
    by (apply answered_event; exact Hf).
  split.
  - intros ->.
    assert (Hp : parsed = (Ok tt, {| GA4MP.posts := GA4MP.posts w;
                                     GA4MP.output := printed |})).
    { unfold parsed, GA4MP._parse_validate_result.
      cbv [bind lift GA4MP.emit raise ret]. rewrite Hs, Hj. cbn.
      unfold GA4MP.getitem. rewrite Hm. reflexivity. }
    split; [exact Hp |]. rewrite Hc, Hp. reflexivity.
  - intros message rest field_path description -> Hfp Hd.
    pose proof (parse_first_message table event response body message rest
                  field_path description w Hs Hj Hm Hfp Hd) as Hp.
    fold parsed in Hp.
    destruct (GA4MP.matching_name table field_path description)
      as [name|] eqn:Hn.
    + destruct (matching_name_entry table field_path description name Hn)
        as (e & He & Hmatch).
      rewrite He in Hp. exists e.
      split; [exact He |]. split; [exact Hmatch |]. split; [exact Hp |].
      rewrite Hc, Hp. reflexivity.
    + split; [| split; [exact Hp | rewrite Hc, Hp; reflexivity]].
      intros name Hin. unfold GA4MP.matching_name in Hn.
      pose proof (List.find_none _ _ Hn name Hin) as Hnone.
      cbn beta in Hnone. now apply orb_false_iff in Hnone.
Qed.

(** C3 on the sample event: an empty list, and two messages of which the
    first names [client_id]. *)
Lemma validation_messages_classification_witness :
  fst (GA4MP._get_valid_and_invalid_events Samples.firebase Samples.gtag
         Samples.error_types (fun _ _ _ => Ok Samples.no_messages)
         Samples.web [Samples.purchase] Samples.start)
  = Ok ([(0%nat, Samples.purchase)], [])
  /\ exists e,
       GA4MP.table_get "client_id" Samples.error_types = Some e
       /\ fst (GA4MP._get_valid_and_invalid_events Samples.firebase
                 Samples.gtag Samples.error_types
                 (fun _ _ _ =>
                    Ok (Samples.with_messages
                          [Samples.message "client_id" "bad client";
                           Samples.message "timestamp_micros" "too old"]))
                 Samples.web [Samples.purchase] Samples.start)
          = Ok ([], [(0%nat, Member e)]).
Proof.
  split.
  - apply (proj1 (validation_messages_classification Samples.firebase
                    Samples.gtag Samples.error_types Samples.web
                    Samples.purchase Samples.no_messages
                    [("validationMessages", VList [])] [] Samples.start
                    eq_refl eq_refl eq_refl eq_refl) eq_refl).
  - pose proof (proj2 (validation_messages_classification Samples.firebase
                    Samples.gtag Samples.error_types Samples.web
                    Samples.purchase
                    (Samples.with_messages
                       [Samples.message "client_id" "bad client";
                        Samples.message "timestamp_micros" "too old"])
                    [("validationMessages",
                      VList [Samples.message "client_id" "bad client";
                             Samples.message "timestamp_micros" "too old"])]
                    [Samples.message "client_id" "bad client";
                     Samples.message "timestamp_micros" "too old"]
                    Samples.start eq_refl eq_refl eq_refl eq_refl)
                  _ _ (VStr "client_id") "bad client"
                  eq_refl eq_refl eq_refl) as H.
    simpl in H. destruct H as (e & He & _ & _ & Hc).
    exists e. split; [exact He | exact Hc].
Defined.

(** C3 as the specification states it fails on a first message of another
    shape. A message without [fieldPath] whose description names
    [client_id], a name of the table, is not classified by its description:
    [message["fieldPath"]] raises [KeyError], for the batch as well. A
    message whose [description] is [null] raises [TypeError] when its
    [fieldPath] is not the first name of the table, and a message without
    [description] raises [KeyError]. In none of these cases is the outcome
    an entry of the table or [GA4_HOOK_ERROR_INVALID_VALUES]. *)
Lemma first_message_shape_escapes :
  GA4MP.table_get "client_id" Samples.error_types
  = Some (FIELD_ERROR "client_id")
  /\ str_contains "client_id" "client_id is not valid" = true
  /\ fst (GA4MP._parse_validate_result Samples.error_types Samples.purchase
            (Samples.with_messages
               [VDict [("description", VStr "client_id is not valid");
                       ("validationCode", VStr "VALUE_INVALID")]])
            Samples.start)
     = Raise (KeyError (VStr "fieldPath"))
  /\ fst (GA4MP._get_valid_and_invalid_events Samples.firebase Samples.gtag
            Samples.error_types
            (Samples.answering
               (Samples.with_messages
                  [VDict [("description", VStr "client_id is not valid");
                          ("validationCode", VStr "VALUE_INVALID")]]))
            Samples.web [Samples.purchase; Samples.purchase] Samples.start)
     = Raise (KeyError (VStr "fieldPath"))
  /\ fst (GA4MP._parse_validate_result Samples.error_types Samples.purchase
            (Samples.with_messages
               [VDict [("fieldPath", VStr "events"); ("description", VNone)]])
            Samples.start)
     = Raise TypeError
  /\ fst (GA4MP._parse_validate_result Samples.error_types Samples.purchase
            (Samples.with_messages [VDict [("fieldPath", VStr "events")]])
            Samples.start)
     = Raise (KeyError (VStr "description")).
Proof.
  split; [reflexivity |]. split; [reflexivity |]. split; [reflexivity |].
  split; [reflexivity |]. split; reflexivity.
Qed.

(** C4, as the code has it. When the POST raises
    [requests.ConnectionError], [_send_validate_request] raises
    [DataOutConnectorValueError] with
    [RETRIABLE_GA4_HOOK_ERROR_HTTP_ERROR], and the event is invalid with
    this [error_num], which is the one a response with a status of 500 or
    more gives: the taxonomy in use has no kind of its own for a failure of
    the transport. *)
Theorem transport_failure_classification (FIREBASE GTAG : string)
    (table : list (string * ErrorNameIDMap))
    (requests_post : nat -> string -> pyval -> Res GA4MP.Response)
    (self : GA4MP.Destination) (event : Dict) (w : GA4MP.World) :
  GA4MP.has_fields FIREBASE GTAG self event = true ->
  (forall body, requests_post (GA4MP.posts w) (GA4MP.validate_url self) body
                = Raise ConnectionError) ->
  (forall payload,
     fst (GA4MP._send_validate_request requests_post self payload w)
     = Raise (DataOutConnectorValueError
                (Member RETRIABLE_GA4_HOOK_ERROR_HTTP_ERROR)))
  /\ fst (GA4MP._get_valid_and_invalid_events FIREBASE GTAG table
            requests_post self [event] w)
     = Ok ([], [(0%nat, Member RETRIABLE_GA4_HOOK_ERROR_HTTP_ERROR)])
  /\ (forall response, 500 <= GA4MP.status_code response ->
        fst (GA4MP._get_valid_and_invalid_events FIREBASE GTAG table
               (fun _ _ _ => Ok response) self [event] w)
        = fst (GA4MP._get_valid_and_invalid_events FIREBASE GTAG table
                 requests_post self [event] w)).
Proof.
  intros Hf Hnet.
  assert (Hrun : fst (GA4MP._get_valid_and_invalid_events FIREBASE GTAG table
                        requests_post self [event] w)
                 = Ok ([], [(0%nat, Member RETRIABLE_GA4_HOOK_ERROR_HTTP_ERROR)])).
  { destruct (build_payload_ok FIREBASE GTAG self event Hf) as [payload Hb].
    rewrite (single_event FIREBASE GTAG table _ self event payload w Hb).
    rewrite validation_answer, Hnet. reflexivity. }
  split; [| split].
  - intros payload. unfold GA4MP._send_validate_request.
    rewrite Hnet. reflexivity.
  - exact Hrun.
  - intros response Hs. rewrite Hrun.
    now apply server_error_event.
Qed.

(** C4 on the sample event and a network that refuses every connection. *)
Lemma transport_failure_classification_witness :
  fst (GA4MP._get_valid_and_invalid_events Samples.firebase Samples.gtag
         Samples.error_types Samples.refusing Samples.web
         [Samples.purchase] Samples.start)
  = Ok ([], [(0%nat, Member RETRIABLE_GA4_HOOK_ERROR_HTTP_ERROR)]).
Proof.
  apply (proj1 (proj2 (transport_failure_classification Samples.firebase
                  Samples.gtag Samples.error_types Samples.refusing
                  Samples.web Samples.purchase Samples.start
                  eq_refl (fun _ => eq_refl)))).
Defined.

(** C4 as the specification states it fails: a refused connection and a status 503
    give the same [error_num], so the kind of the first is not distinct from
    the kind of the second. *)
Lemma transport_failure_same_kind :
  exists n_transport n_server : ErrorNum,
    fst (GA4MP._get_valid_and_invalid_events Samples.firebase Samples.gtag
           Samples.error_types Samples.refusing Samples.web
           [Samples.purchase] Samples.start)
    = Ok ([], [(0%nat, n_transport)])
    /\ fst (GA4MP._get_valid_and_invalid_events Samples.firebase Samples.gtag
              Samples.error_types (Samples.answering Samples.unavailable)
              Samples.web [Samples.purchase] Samples.start)
       = Ok ([], [(0%nat, n_server)])
    /\ ~ (error_kind n_transport <> error_kind n_server).
Proof.
  exists (Member RETRIABLE_GA4_HOOK_ERROR_HTTP_ERROR),
         (Member RETRIABLE_GA4_HOOK_ERROR_HTTP_ERROR).
  split; [reflexivity |]. split; [reflexivity |].
  intros H. now apply H.
Qed.

(** ** [_get_valid_and_invalid_events] *)

(** C1, as the code has it. For a batch of events that each have the
    fields the payload builder reads, on a network that answers every POST
    with a response of the documented shape or fails with
    [requests.ConnectionError], the call returns two lists: every pair of
    the valid list is an index with the event at this index, every index of
    the invalid list is an index of the batch, both lists are in ascending
    order of index, no index is in both, every index of the batch is in one
    of them, and together they are as long as the batch. *)
Theorem valid_invalid_partition (FIREBASE GTAG : string)
    (table : list (string * ErrorNameIDMap))
    (requests_post : nat -> string -> pyval -> Res GA4MP.Response)
    (self : GA4MP.Destination) (events : list Dict) (w : GA4MP.World) :
  Forall (fun e => GA4MP.has_fields FIREBASE GTAG self e = true) events ->
  GA4MP.answers_as_documented requests_post ->
  exists (valid : list (nat * Dict)) (invalid : list (nat * ErrorNum)),
    fst (GA4MP._get_valid_and_invalid_events FIREBASE GTAG table requests_post
           self events w) = Ok (valid, invalid)
    /\ (forall i e, (i, e) ∈ valid -> events !! i = Some e)
    /\ (forall i n, (i, n) ∈ invalid -> (i < length events)%nat)
    /\ StronglySorted lt valid.*1
    /\ StronglySorted lt invalid.*1
    /\ (forall i, i ∈ valid.*1 -> i ∉ invalid.*1)
    /\ (forall i, (i < length events)%nat <-> i ∈ valid.*1 \/ i ∈ invalid.*1)
    /\ (length valid + length invalid = length events)%nat.
Proof.
  intros Hfields Hnet.
  assert (Hcap : forall m e, events !! m = Some e ->
            GA4MP.captured (GA4MP.event_outcome FIREBASE GTAG table
                              requests_post self (GA4MP.posts w + m) e)
            = true).
  { intros m e Hm. apply documented_captured; [exact Hnet |].
    rewrite Forall_forall in Hfields. apply Hfields.
    eapply list_elem_of_lookup_2, Hm. }
  destruct (split_total FIREBASE GTAG table requests_post self events
              0%nat (GA4MP.posts w) Hcap) as (v & inv & Hsplit).
  pose proof (split_valid _ _ _ _ _ _ _ _ _ _ Hsplit) as Hv.
  pose proof (split_invalid _ _ _ _ _ _ _ _ _ _ Hsplit) as Hi.
  destruct (split_sorted _ _ _ _ _ _ _ _ _ _ Hsplit) as (Hsv & Hsi & Hlen).
  exists v, inv. split.
  { unfold GA4MP._get_valid_and_invalid_events.
    rewrite events_loop_outcomes, Hsplit. reflexivity. }
  split.
  { intros i e Hin. apply Hv in Hin as (m & -> & Hm & _). exact Hm. }
  split.
  { intros i n Hin. apply Hi in Hin as (m & e & -> & Hm & _).
    apply lookup_lt_Some in Hm. exact Hm. }
  split; [exact Hsv |]. split; [exact Hsi |]. split.
  { intros i Hiv Hii.
    apply list_elem_of_fmap in Hiv as ([i1 e] & -> & Hiv).
    apply list_elem_of_fmap in Hii as ([i2 n] & Heq & Hii).
    cbn in Heq. subst i2.
    apply Hv in Hiv as (m & -> & Hm & Ho).
    apply Hi in Hii as (m' & e' & Heq & Hm' & Ho').
    assert (m' = m) by lia. subst m'. congruence. }
  split; [| exact Hlen].
  intros i. split.
  - intros Hlt. destruct (lookup_lt_is_Some_2 events i Hlt) as [e Hm].
    specialize (Hcap i e Hm).
    destruct (GA4MP.event_outcome FIREBASE GTAG table requests_post self
                (GA4MP.posts w + i) e) as [[]|x] eqn:Ho.
    + left. apply list_elem_of_fmap. exists (i, e). split; [reflexivity |].
      apply Hv. exists i. auto.
    + destruct x; try discriminate.
      right. apply list_elem_of_fmap. exists (i, error_num).
      split; [reflexivity |]. apply Hi. exists i, e. auto.
  - intros [Hin | Hin].
    + apply list_elem_of_fmap in Hin as ([i1 e] & -> & Hin).
      apply Hv in Hin as (m & -> & Hm & _).
      apply lookup_lt_Some in Hm. exact Hm.
    + apply list_elem_of_fmap in Hin as ([i1 n] & -> & Hin).
      apply Hi in Hin as (m & e & -> & Hm & _).
      apply lookup_lt_Some in Hm. exact Hm.
Qed.

(** C1 on three events: the first POST is answered with status 503, the
    second with a rejection of [client_id], the third with no message. *)
Lemma valid_invalid_partition_witness :
  exists (valid : list (nat * Dict)) (invalid : list (nat * ErrorNum)),
    fst (GA4MP._get_valid_and_invalid_events Samples.firebase Samples.gtag
           Samples.error_types Samples.mixed Samples.web
           [Samples.purchase; Samples.purchase; Samples.purchase]
           Samples.start) = Ok (valid, invalid)
    /\ (forall i e, (i, e) ∈ valid ->
          [Samples.purchase; Samples.purchase; Samples.purchase] !! i = Some e)
    /\ (forall i n, (i, n) ∈ invalid -> (i < 3)%nat)
    /\ StronglySorted lt valid.*1
    /\ StronglySorted lt invalid.*1
    /\ (forall i, i ∈ valid.*1 -> i ∉ invalid.*1)
    /\ (forall i, (i < 3)%nat <-> i ∈ valid.*1 \/ i ∈ invalid.*1)
    /\ (length valid + length invalid = 3)%nat.
Proof.
  apply (valid_invalid_partition Samples.firebase Samples.gtag
           Samples.error_types Samples.mixed Samples.web
           [Samples.purchase; Samples.purchase; Samples.purchase]
           Samples.start).
  - repeat (apply Forall_cons; split; [reflexivity |]). apply Forall_nil.
    exact I.
  - intros [|[|n]] url body; reflexivity.
Defined.

(** C1 as the specification states it fails: the event has every field that is
    read, the POST is answered with status 200 and the JSON body [{}], and
    the call raises [KeyError] instead of returning the two lists. *)
Lemma partition_not_returned :
  GA4MP.has_fields Samples.firebase Samples.gtag Samples.web Samples.purchase
  = true
  /\ fst (GA4MP._get_valid_and_invalid_events Samples.firebase Samples.gtag
            Samples.error_types (Samples.answering Samples.empty_object)
            Samples.web [Samples.purchase] Samples.start)
     = Raise (KeyError (VStr "validationMessages"))
  /\ ~ exists valid invalid,
         fst (GA4MP._get_valid_and_invalid_events Samples.firebase
                Samples.gtag Samples.error_types
                (Samples.answering Samples.empty_object)
                Samples.web [Samples.purchase] Samples.start)
         = Ok (valid, invalid).
Proof.
  split; [reflexivity |]. split; [reflexivity |].
  intros (valid & invalid & H). vm_compute in H. discriminate.
Qed.

(** C5, as the code has it. No [DataOutConnectorValueError] leaves
    [_get_valid_and_invalid_events]; and when every event of the batch
    either is valid or fails with a [DataOutConnectorValueError], the call
    returns, its invalid list holds exactly the indices of the events that
    failed, each with the [error_num] raised, and its valid list exactly the
    other events: a failure of this kind does not stop the events after
    it. *)
Theorem connector_errors_captured (FIREBASE GTAG : string)
    (table : list (string * ErrorNameIDMap))
    (requests_post : nat -> string -> pyval -> Res GA4MP.Response)
    (self : GA4MP.Destination) (events : list Dict) (w : GA4MP.World) :
  (forall x,
     fst (GA4MP._get_valid_and_invalid_events FIREBASE GTAG table
            requests_post self events w) = Raise x ->
     forall n, x <> DataOutConnectorValueError n)
  /\ ((forall m e, events !! m = Some e ->
         GA4MP.captured (GA4MP.event_outcome FIREBASE GTAG table requests_post
                           self (GA4MP.posts w + m) e) = true) ->
      exists (valid : list (nat * Dict)) (invalid : list (nat * ErrorNum)),
        fst (GA4MP._get_valid_and_invalid_events FIREBASE GTAG table
               requests_post self events w) = Ok (valid, invalid)
        /\ (forall i n,
              (i, n) ∈ invalid <->
              exists e, events !! i = Some e
                        /\ GA4MP.event_outcome FIREBASE GTAG table
                             requests_post self (GA4MP.posts w + i) e
                           = Raise (DataOutConnectorValueError n))
        /\ (forall i e,
              (i, e) ∈ valid <->
              events !! i = Some e
              /\ GA4MP.event_outcome FIREBASE GTAG table requests_post self
                   (GA4MP.posts w + i) e = Ok tt)).
Proof.
  split.
  - intros x Hx. unfold GA4MP._get_valid_and_invalid_events in Hx.
    rewrite events_loop_outcomes in Hx.
    destruct (GA4MP.outcomes_split FIREBASE GTAG table requests_post self
                0 (GA4MP.posts w) events) as [[v inv]|y] eqn:Hsplit;
      [discriminate |].
    inversion Hx; subst y.
    exact (proj1 (split_raise _ _ _ _ _ _ _ _ _ Hsplit)).
  - intros Hcap.
    destruct (split_total FIREBASE GTAG table requests_post self events
                0%nat (GA4MP.posts w) Hcap) as (v & inv & Hsplit).
    exists v, inv. split.
    { unfold GA4MP._get_valid_and_invalid_events.
      rewrite events_loop_outcomes, Hsplit. reflexivity. }
    split.
    + intros i n.
      rewrite (split_invalid _ _ _ _ _ _ _ _ _ _ Hsplit i n). split.
      * intros (m & e & -> & Hm & Ho). exists e. auto.
      * intros (e & Hm & Ho). exists i, e. auto.
    + intros i e.
      rewrite (split_valid _ _ _ _ _ _ _ _ _ _ Hsplit i e). split.
      * intros (m & -> & Hm & Ho). auto.
      * intros (Hm & Ho). exists i. auto.
Qed.

(** C5 on three events: the first and the second fail, the third is
    valid. *)
Lemma connector_errors_captured_witness :
  exists (valid : list (nat * Dict)) (invalid : list (nat * ErrorNum)),
    fst (GA4MP._get_valid_and_invalid_events Samples.firebase Samples.gtag
           Samples.error_types Samples.mixed Samples.web
           [Samples.purchase; Samples.purchase; Samples.purchase]
           Samples.start) = Ok (valid, invalid)
    /\ (forall i n,
          (i, n) ∈ invalid <->
          exists e,
            [Samples.purchase; Samples.purchase; Samples.purchase] !! i
            = Some e
            /\ GA4MP.event_outcome Samples.firebase Samples.gtag
                 Samples.error_types Samples.mixed Samples.web (0 + i) e
               = Raise (DataOutConnectorValueError n))
    /\ (forall i e,
          (i, e) ∈ valid <->
          [Samples.purchase; Samples.purchase; Samples.purchase] !! i = Some e
          /\ GA4MP.event_outcome Samples.firebase Samples.gtag
               Samples.error_types Samples.mixed Samples.web (0 + i) e
             = Ok tt).
Proof.
  apply (proj2 (connector_errors_captured Samples.firebase Samples.gtag
                  Samples.error_types Samples.mixed Samples.web
                  [Samples.purchase; Samples.purchase; Samples.purchase]
                  Samples.start)).
  intros [|[|[|m]]] e Hm; simpl in Hm; inversion Hm; subst; reflexivity.
Defined.

(** C5 as the specification states it fails. An event without [user_id] makes the
    call raise [KeyError] before anything is sent; a status-200 body
    without [validationMessages] makes it raise [KeyError] after the first
    POST, and the second event of the batch is never validated. *)
Lemma malformed_rows_escape :
  GA4MP._get_valid_and_invalid_events Samples.firebase Samples.gtag
    Samples.error_types (Samples.answering Samples.no_messages) Samples.web
    [Samples.purchase_without_user; Samples.purchase] Samples.start
  = (Raise (KeyError (VStr "user_id")), Samples.start)
  /\ fst (GA4MP._get_valid_and_invalid_events Samples.firebase Samples.gtag
            Samples.error_types (Samples.answering Samples.empty_object)
            Samples.web [Samples.purchase; Samples.purchase] Samples.start)
     = Raise (KeyError (VStr "validationMessages"))
  /\ GA4MP.posts
       (snd (GA4MP._get_valid_and_invalid_events Samples.firebase
               Samples.gtag Samples.error_types
               (Samples.answering Samples.empty_object)
               Samples.web [Samples.purchase; Samples.purchase]
               Samples.start))
     = 1%nat.
Proof.
  split; [reflexivity |]. split; reflexivity.
Qed.

(** * Further properties of [dags/utils.py] *)

(** ** [RunResult] *)

Lemma fold_add_from (results : list Utils.RunResult) :
  forall acc : Utils.RunResult,
  fold_left Utils.__add__ results acc
  = Utils.mkRunResult
      (Utils.successful_hits acc
       + foldr Z.add 0 (map Utils.successful_hits results))
      (Utils.failed_hits acc + foldr Z.add 0 (map Utils.failed_hits results))
      (Utils.error_messages acc ++ concat (map Utils.error_messages results))
      (Utils.dry_run acc || existsb Utils.dry_run results).
Proof.
  induction results as [|r results IH]; intros [sa fa ma da]; cbn.
  - now rewrite !Z.add_0_r, app_nil_r, orb_false_r.
  - rewrite IH. unfold Utils.__add__. cbn.
    f_equal; try lia.
    + now rewrite app_assoc.
    + now rewrite orb_assoc.
Qed.

(** X1. [RunResult()] is neutral for [__add__] on both sides, and adding
    up a list of results from it gives the sums of the two counts, the
    messages of all results in the order of the list, and a dry-run flag
    that is set as soon as one result has it. *)
Theorem RunResult_sum_totals (r : Utils.RunResult)
    (results : list Utils.RunResult) :
  Utils.__add__ Results.RunResult_default r = r
  /\ Utils.__add__ r Results.RunResult_default = r
  /\ Results.RunResult_sum results
     = Utils.mkRunResult
         (foldr Z.add 0 (map Utils.successful_hits results))
         (foldr Z.add 0 (map Utils.failed_hits results))
         (concat (map Utils.error_messages results))
         (existsb Utils.dry_run results).
Proof.
  split; [| split].
  - destruct r; reflexivity.
  - destruct r as [sh fh em dr]. unfold Utils.__add__. cbn.
    now rewrite !Z.add_0_r, app_nil_r, orb_false_r.
  - unfold Results.RunResult_sum. rewrite fold_add_from. reflexivity.
Qed.

(** ** [get_partial_failures] when decoding fails *)

Section PartialFailuresFaults.
Import Utils.

(** With a status code that is not zero the result is that of the loop
    over the details; the mapping is printed only when the loop ends. *)
Lemma get_partial_failures_run (client : GoogleAdsClient)
    (response : MutateResponse) (st : Status) (ds : list ErrorDetail)
    (out : list Printed) :
  partial_failure_error response = Some st ->
  code st <> Some 0 ->
  details st = Some ds ->
  get_partial_failures client response out
  = match details_loop client ds ∅ with
    | Ok m => (Ok m, out ++ [Partial_failures m])
    | Raise e => (Raise e, out)
    end.
Proof.
  intros Hpf Hcode Hdet. unfold get_partial_failures.
  rewrite Hpf, Hdet. cbn [default from_option]. unfold id.
  destruct (code st) as [[|p|p]|]; try congruence;
    unfold bind, lift, ret, print;
    destruct (details_loop client ds ∅); reflexivity.
Qed.

Lemma errors_loop_missing_path (errs : list GoogleAdsError) :
  Exists (fun e => field_path_elements (location e) = []) errs ->
  forall pf, errors_loop errs pf = Raise IndexError.
Proof.
  induction errs as [|e errs IH]; intros Hex pf.
  - inversion Hex.
  - cbn [errors_loop].
    destruct (field_path_elements (location e)) as [|el path] eqn:Hp;
      [reflexivity |].
    apply IH. inversion Hex as [? ? He | ? ? Hrest]; subst;
      [congruence | exact Hrest].
Qed.

Lemma details_loop_app (client : GoogleAdsClient)
    (ds1 ds2 : list ErrorDetail) :
  forall pf,
  details_loop client (ds1 ++ ds2) pf
  = (pf' <-? details_loop client ds1 pf ;; details_loop client ds2 pf').
Proof.
  induction ds1 as [|d ds1 IH]; intros pf; cbn; [reflexivity |].
  destruct (deserialize client (value d)) as [f|e]; cbn; [| reflexivity].
  destruct (errors_loop (errors f) pf); cbn; [apply IH | reflexivity].
Qed.

End PartialFailuresFaults.

(** X2. When the status code is not zero and every detail decodes, one
    error without a location path makes [get_partial_failures] raise
    [IndexError]: no mapping is returned, not even for the errors that have
    an index, and nothing is printed. *)
Theorem get_partial_failures_missing_path
    (client : Utils.GoogleAdsClient) (response : Utils.MutateResponse)
    (st : Utils.Status) (ds : list Utils.ErrorDetail)
    (failures : list Utils.GoogleAdsFailure) (out : list Utils.Printed) :
  Utils.partial_failure_error response = Some st ->
  Utils.code st <> Some 0 ->
  Utils.details st = Some ds ->
  Forall2 (fun d f => Utils.deserialize client (Utils.value d) = Ok f)
          ds failures ->
  Exists (fun e => Utils.field_path_elements (Utils.location e) = [])
         (concat (map Utils.errors failures)) ->
  Utils.get_partial_failures client response out = (Raise IndexError, out).
Proof.
  intros Hpf Hcode Hdet Hdec Hex.
  rewrite (get_partial_failures_run client response st ds out Hpf Hcode Hdet).
  rewrite (details_loop_errors_loop client ds failures Hdec).
  now rewrite errors_loop_missing_path.
Qed.

(** X3. When the status code is not zero, the first detail that does not
    decode ends the call with the exception of the decoder: the failures
    read from the details before it are not returned. *)
Theorem get_partial_failures_decode_fault
    (client : Utils.GoogleAdsClient) (response : Utils.MutateResponse)
    (st : Utils.Status) (before after : list Utils.ErrorDetail)
    (d : Utils.ErrorDetail) (failures : list Utils.GoogleAdsFailure)
    (e : exn) (out : list Utils.Printed) :
  Utils.partial_failure_error response = Some st ->
  Utils.code st <> Some 0 ->
  Utils.details st = Some (before ++ d :: after) ->
  Forall2 (fun d f => Utils.deserialize client (Utils.value d) = Ok f)
          before failures ->
  Forall (fun e => Utils.field_path_elements (Utils.location e) <> [])
         (concat (map Utils.errors failures)) ->
  Utils.deserialize client (Utils.value d) = Raise e ->
  Utils.get_partial_failures client response out = (Raise e, out).
Proof.
  intros Hpf Hcode Hdet Hdec Hpath Hd.
  rewrite (get_partial_failures_run client response st _ out Hpf Hcode Hdet).
  rewrite details_loop_app.
  rewrite (details_loop_errors_loop client before failures Hdec).
  destruct (errors_loop_lookup _ ∅ Hpath) as (m & -> & _).
  cbn. rewrite Hd. reflexivity.
Qed.

(** X2 on a failure whose second error has no location path. *)
Lemma get_partial_failures_missing_path_witness :
  Utils.get_partial_failures
    {| Utils.deserialize := fun _ =>
         Ok {| Utils.errors :=
                 [Samples.error_at 0 "A" "msgA";
                  {| Utils.error_code := "B"; Utils.message := "msgB";
                     Utils.location := {| Utils.field_path_elements := [] |} |}] |} |}
    Samples.failed_response []
  = (Raise IndexError, []).
Proof.
  apply (get_partial_failures_missing_path _ Samples.failed_response
           {| Utils.code := Some 3;
              Utils.details := Some [{| Utils.value := "blob" |}] |}
           [{| Utils.value := "blob" |}]
           [{| Utils.errors :=
                 [Samples.error_at 0 "A" "msgA";
                  {| Utils.error_code := "B"; Utils.message := "msgB";
                     Utils.location := {| Utils.field_path_elements := [] |} |}] |}]
           []).
  - reflexivity.
  - discriminate.
  - reflexivity.
  - repeat constructor.
  - apply Exists_cons_tl, Exists_cons_hd. reflexivity.
Defined.

(** X3 on two details of which the second does not decode. *)
Lemma get_partial_failures_decode_fault_witness :
  Utils.get_partial_failures
    {| Utils.deserialize := fun blob =>
         if String.eqb blob "good" then Ok Samples.three_errors
         else Raise (OtherException "DecodeError") |}
    {| Utils.partial_failure_error :=
         Some {| Utils.code := Some 3;
                 Utils.details := Some [{| Utils.value := "good" |};
                                        {| Utils.value := "bad" |}] |} |}
    []
  = (Raise (OtherException "DecodeError"), []).
Proof.
  apply (get_partial_failures_decode_fault _ _
           {| Utils.code := Some 3;
              Utils.details := Some [{| Utils.value := "good" |};
                                     {| Utils.value := "bad" |}] |}
           [{| Utils.value := "good" |}] [] {| Utils.value := "bad" |}
           [Samples.three_errors]).
  - reflexivity.
  - discriminate.
  - reflexivity.
  - repeat constructor.
  - repeat constructor; discriminate.
  - reflexivity.
Defined.

(** ** [_parse_data] on rows of other lengths *)

Section RowLengths.
Import Utils.

Lemma fill_event_dict_raise (event : list pyval) (fields : list string) :
  forall (i : nat) (d : Dict) (e : exn),
  fill_event_dict fields i event d = Raise e -> e = IndexError.
Proof.
  induction fields as [|f fields IH]; intros i d e H; cbn in H;
    [discriminate |].
  destruct (event !! i); [eauto | congruence].
Qed.

Lemma fill_event_dict_short (event : list pyval) (fields : list string) :
  forall (i : nat) (d : Dict),
  (i <= length event < i + length fields)%nat ->
  fill_event_dict fields i event d = Raise IndexError.
Proof.
  induction fields as [|f fields IH]; intros i d Hlen; cbn in *; [lia |].
  destruct (event !! i) as [v|] eqn:Hv; [| reflexivity].
  apply lookup_lt_Some in Hv. apply IH. lia.
Qed.

Lemma rows_loop_short (fields : list string) (rows : list (list pyval)) :
  Exists (fun row => (length row < length fields)%nat) rows ->
  forall events, rows_loop fields rows events = Raise IndexError.
Proof.
  induction rows as [|row rows IH]; intros Hex events.
  - inversion Hex.
  - cbn [rows_loop].
    destruct (fill_event_dict fields 0 row []) as [m|e] eqn:Hm.
    + cbn [res_bind]. apply IH.
      inversion Hex as [? ? Hrow | ? ? Hrest]; subst; [| exact Hrest].
      rewrite fill_event_dict_short in Hm by (cbn; lia). discriminate.
    + now rewrite (fill_event_dict_raise _ _ _ _ _ Hm).
Qed.

Lemma fill_event_dict_take (event : list pyval) (fields : list string) :
  forall (i : nat) (d : Dict),
  fill_event_dict fields i (take (i + length fields) event) d
  = fill_event_dict fields i event d.
Proof.
  induction fields as [|f fields IH]; intros i d; cbn; [reflexivity |].
  rewrite lookup_take_lt by lia.
  destruct (event !! i) as [v|]; [| reflexivity].
  rewrite <- (IH (S i)). f_equal. f_equal. lia.
Qed.

Lemma rows_loop_take (fields : list string) (rows : list (list pyval)) :
  forall events,
  rows_loop fields (map (take (length fields)) rows) events
  = rows_loop fields rows events.
Proof.
  induction rows as [|row rows IH]; intros events; cbn; [reflexivity |].
  pose proof (fill_event_dict_take row fields 0 []) as Htake.
  change (0 + length fields)%nat with (length fields) in Htake.
  rewrite Htake.
  destruct (fill_event_dict fields 0 row []); cbn; [apply IH | reflexivity].
Qed.

End RowLengths.

(** X4. A row with fewer values than there are field names makes
    [_parse_data] raise [IndexError], wherever the row stands: the rows
    before it are not returned. *)
Theorem parse_data_short_row (fields : list string)
    (rows : list (list pyval)) :
  Exists (fun row => (length row < length fields)%nat) rows ->
  Utils._parse_data fields rows = Raise IndexError.
Proof. intros H. now apply rows_loop_short. Qed.

Lemma parse_data_short_row_witness :
  Utils._parse_data ["id"; "name"] [[VInt 7; VStr "ann"]; [VInt 8]]
  = Raise IndexError.
Proof.
  apply (parse_data_short_row ["id"; "name"]
           [[VInt 7; VStr "ann"]; [VInt 8]]).
  apply Exists_cons_tl, Exists_cons_hd. simpl. lia.
Defined.

(** X5. [_parse_data] reads of every row only the values that have a field
    name: values after them change neither the mappings nor which rows are
    dropped. *)
Theorem parse_data_extra_values (fields : list string)
    (rows : list (list pyval)) :
  Utils._parse_data fields (map (take (length fields)) rows)
  = Utils._parse_data fields rows.
Proof. apply rows_loop_take. Qed.

(** * Further properties of [dags/destinations/ga4mp.py] *)

(** X6. For a status other than 200 the body of the response is not read:
    the event is printed and [DataOutConnectorValueError] is raised, with
    [RETRIABLE_GA4_HOOK_ERROR_HTTP_ERROR] from 500 on and
    [NON_RETRIABLE_ERROR_EVENT_NOT_SENT] below, statuses under 200
    included. *)
Theorem non_200_body_unread (table : list (string * ErrorNameIDMap))
    (event : Dict) (response : GA4MP.Response) (w : GA4MP.World) :
  GA4MP.status_code response <> 200 ->
  GA4MP._parse_validate_result table event response w
  = (Raise (DataOutConnectorValueError
              (Member (if 500 <=? GA4MP.status_code response
                       then RETRIABLE_GA4_HOOK_ERROR_HTTP_ERROR
                       else NON_RETRIABLE_ERROR_EVENT_NOT_SENT))),
     {| GA4MP.posts := GA4MP.posts w;
        GA4MP.output := GA4MP.output w ++ [GA4MP.Print_validated_event event] |}).
Proof.
  intros Hs. unfold GA4MP._parse_validate_result.
  cbv [bind lift GA4MP.emit raise ret].
  destruct (500 <=? GA4MP.status_code response); [reflexivity |].
  destruct (Z.eqb_spec (GA4MP.status_code response) 200); [contradiction |].
  reflexivity.
Qed.

(** X6 on a status 100 with a body that would make the event valid. *)
Lemma non_200_body_unread_witness :
  GA4MP._parse_validate_result Samples.error_types Samples.purchase
    {| GA4MP.status_code := 100;
       GA4MP.json := Some (VDict [("validationMessages", VList [])]) |}
    Samples.start
  = (Raise (DataOutConnectorValueError
              (Member NON_RETRIABLE_ERROR_EVENT_NOT_SENT)),
     {| GA4MP.posts := 0;
        GA4MP.output := [GA4MP.Print_validated_event Samples.purchase] |}).
Proof.
  apply (non_200_body_unread Samples.error_types Samples.purchase
           {| GA4MP.status_code := 100;
              GA4MP.json := Some (VDict [("validationMessages", VList [])]) |}
           Samples.start).
  simpl. lia.
Defined.

(** X7. A first validation message without [fieldPath] makes
    [_parse_validate_result] raise [KeyError], whatever its description
    says; the exception is not one the loop catches, so the call for the
    batch raises it. *)
Theorem message_without_field_path (FIREBASE GTAG : string)
    (table : list (string * ErrorNameIDMap)) (self : GA4MP.Destination)
    (event : Dict) (response : GA4MP.Response) (body message : Dict)
    (rest : list pyval) (w : GA4MP.World) :
  GA4MP.has_fields FIREBASE GTAG self event = true ->
  GA4MP.status_code response = 200 ->
  GA4MP.json response = Some (VDict body) ->
  dict_get "validationMessages" body = Some (VList (VDict message :: rest)) ->
  dict_get "fieldPath" message = None ->
  fst (GA4MP._parse_validate_result table event response w)
  = Raise (KeyError (VStr "fieldPath"))
  /\ fst (GA4MP._get_valid_and_invalid_events FIREBASE GTAG table
            (fun _ _ _ => Ok response) self [event] w)
     = Raise (KeyError (VStr "fieldPath")).
Proof.
  intros Hf Hs Hj Hm Hfp.
  assert (Hp : fst (GA4MP._parse_validate_result table event response w)
               = Raise (KeyError (VStr "fieldPath"))).
  { unfold GA4MP._parse_validate_result.
    cbv [bind lift GA4MP.emit raise ret]. rewrite Hs, Hj. cbn.
    unfold GA4MP.getitem. rewrite Hm. cbn. unfold GA4MP.getitem.
    rewrite Hfp. reflexivity. }
  split; [exact Hp |].
  rewrite (answered_event _ _ _ _ _ _ _ Hf), Hp. reflexivity.
Qed.

(** X7 on a message that has only a description, which names a field of
    the table. *)
Lemma message_without_field_path_witness :
  fst (GA4MP._get_valid_and_invalid_events Samples.firebase Samples.gtag
         Samples.error_types
         (fun _ _ _ =>
            Ok (Samples.with_messages
                  [VDict [("description", VStr "client_id is not valid")]]))
         Samples.web [Samples.purchase] Samples.start)
  = Raise (KeyError (VStr "fieldPath")).
Proof.
  apply (proj2 (message_without_field_path Samples.firebase Samples.gtag
                  Samples.error_types Samples.web Samples.purchase
                  (Samples.with_messages
                     [VDict [("description", VStr "client_id is not valid")]])
                  [("validationMessages",
                    VList [VDict [("description",
                                   VStr "client_id is not valid")]])]
                  [("description", VStr "client_id is not valid")] []
                  Samples.start eq_refl eq_refl eq_refl eq_refl eq_refl)).
Defined.

(** X8. With status 200, any falsy value under [validationMessages]
    ([null], [false], [0], [""], [[]] or [{}]) makes the event valid. *)
Theorem falsy_messages_valid (FIREBASE GTAG : string)
    (table : list (string * ErrorNameIDMap)) (self : GA4MP.Destination)
    (event : Dict) (response : GA4MP.Response) (body : Dict) (v : pyval)
    (w : GA4MP.World) :
  GA4MP.has_fields FIREBASE GTAG self event = true ->
  GA4MP.status_code response = 200 ->
  GA4MP.json response = Some (VDict body) ->
  dict_get "validationMessages" body = Some v ->
  truthy v = false ->
  GA4MP._parse_validate_result table event response w
  = (Ok tt, {| GA4MP.posts := GA4MP.posts w;
               GA4MP.output :=
                 GA4MP.output w ++ [GA4MP.Print_validated_event event] |})
  /\ fst (GA4MP._get_valid_and_invalid_events FIREBASE GTAG table
            (fun _ _ _ => Ok response) self [event] w)
     = Ok ([(0%nat, event)], []).
Proof.
  intros Hf Hs Hj Hm Hv.
  assert (Hp : GA4MP._parse_validate_result table event response w
               = (Ok tt, {| GA4MP.posts := GA4MP.posts w;
                            GA4MP.output :=
                              GA4MP.output w
                              ++ [GA4MP.Print_validated_event event] |})).
  { unfold GA4MP._parse_validate_result.
    cbv [bind lift GA4MP.emit raise ret]. rewrite Hs, Hj. cbn.
    unfold GA4MP.getitem. rewrite Hm, Hv. reflexivity. }
  split; [exact Hp |].
  rewrite (answered_event _ _ _ _ _ _ _ Hf), Hp. reflexivity.
Qed.

(** X8 on the body [{"validationMessages": null}]. *)
Lemma falsy_messages_valid_witness :
  fst (GA4MP._get_valid_and_invalid_events Samples.firebase Samples.gtag
         Samples.error_types
         (fun _ _ _ =>
            Ok {| GA4MP.status_code := 200;
                  GA4MP.json := Some (VDict [("validationMessages", VNone)]) |})
         Samples.web [Samples.purchase] Samples.start)
  = Ok ([(0%nat, Samples.purchase)], []).
Proof.
  apply (proj2 (falsy_messages_valid Samples.firebase Samples.gtag
                  Samples.error_types Samples.web Samples.purchase
                  {| GA4MP.status_code := 200;
                     GA4MP.json := Some (VDict [("validationMessages", VNone)]) |}
                  [("validationMessages", VNone)] VNone Samples.start
                  eq_refl eq_refl eq_refl eq_refl eq_refl)).
Defined.

(** ** The requests of a batch *)

Section Requests.
Import GA4MP.

Variable FIREBASE GTAG : string.
Variable _ERROR_TYPES : list (string * ErrorNameIDMap).
Variable requests_post : nat -> string -> pyval -> Res Response.

(** One round of the loop. *)
Lemma events_loop_step (self : Destination) (event : Dict)
    (events : list Dict) (i : nat) (valid : list (nat * Dict))
    (invalid : list (nat * ErrorNum)) (w : World) :
  events_loop FIREBASE GTAG _ERROR_TYPES requests_post self i
    (event :: events) valid invalid w
  = match build_payload FIREBASE GTAG self event with
    | Raise e => (Raise e, w)
    | Ok payload =>
        let r := validate _ERROR_TYPES requests_post self event payload w in
        match fst r with
        | Ok _ =>
            events_loop FIREBASE GTAG _ERROR_TYPES requests_post self (S i)
              events (valid ++ [(i, event)]) invalid (snd r)
        | Raise (DataOutConnectorValueError error_num) =>
            events_loop FIREBASE GTAG _ERROR_TYPES requests_post self (S i)
              events valid (invalid ++ [(i, error_num)]) (snd r)
        | Raise e => (Raise e, snd r)
        end
    end.
Proof.
  cbn [events_loop]. unfold bind at 1. unfold lift at 1.
  destruct (build_payload FIREBASE GTAG self event) as [payload|e];
    [| reflexivity].
  unfold bind at 1. unfold try_block at 1.
  fold (validate _ERROR_TYPES requests_post self event payload).
  destruct (validate _ERROR_TYPES requests_post self event payload w)
    as [[[]|e] w']; cbn [fst snd]; [reflexivity |].
  destruct e; reflexivity.
Qed.

Lemma events_loop_posts (self : Destination) (events : list Dict) :
  forall (i : nat) (valid : list (nat * Dict))
         (invalid : list (nat * ErrorNum)) (w : World),
  (posts w
   <= posts (snd (events_loop FIREBASE GTAG _ERROR_TYPES requests_post
                    self i events valid invalid w))
   <= posts w + length events)%nat
  /\ (forall x,
        fst (events_loop FIREBASE GTAG _ERROR_TYPES requests_post
               self i events valid invalid w) = Ok x ->
        posts (snd (events_loop FIREBASE GTAG _ERROR_TYPES requests_post
                      self i events valid invalid w))
        = (posts w + length events)%nat).
Proof.
  induction events as [|event events IH]; intros i valid invalid w.
  - cbn. split; [lia | intros; lia].
  - rewrite events_loop_step. cbn [length].
    destruct (build_payload FIREBASE GTAG self event) as [payload|e];
      [| cbn; split; [lia | discriminate]].
    destruct (validate_run _ERROR_TYPES requests_post self event payload w)
      as [_ Hposts].
    cbv zeta.
    destruct (validate _ERROR_TYPES requests_post self event payload w)
      as [r w'].
    cbn [fst snd] in *.
    destruct r as [[]|e].
    + destruct (IH (S i) (valid ++ [(i, event)]) invalid w') as [Hb Heq].
      split; [lia |]. intros x Hx. rewrite (Heq x Hx). lia.
    + destruct e; try (cbn; split; [lia | discriminate]).
      destruct (IH (S i) valid (invalid ++ [(i, error_num)]) w')
        as [Hb Heq].
      split; [lia |]. intros x Hx. rewrite (Heq x Hx). lia.
Qed.

End Requests.

(** X9. [_get_valid_and_invalid_events] sends at most one POST per event,
    and exactly one per event when it returns. *)
Theorem one_post_per_event (FIREBASE GTAG : string)
    (table : list (string * ErrorNameIDMap))
    (requests_post : nat -> string -> pyval -> Res GA4MP.Response)
    (self : GA4MP.Destination) (events : list Dict) (w : GA4MP.World) :
  (GA4MP.posts w
   <= GA4MP.posts
        (snd (GA4MP._get_valid_and_invalid_events FIREBASE GTAG table
                requests_post self events w))
   <= GA4MP.posts w + length events)%nat
  /\ (forall lists,
        fst (GA4MP._get_valid_and_invalid_events FIREBASE GTAG table
               requests_post self events w) = Ok lists ->
        GA4MP.posts
          (snd (GA4MP._get_valid_and_invalid_events FIREBASE GTAG table
                  requests_post self events w))
        = (GA4MP.posts w + length events)%nat).
Proof. apply events_loop_posts. Qed.

(** ** The payload of an event *)

(** X10. The payload is built from the fields in [required_fields] alone:
    two events that agree on them have the same payload, or fail with the
    same [KeyError]. *)
Theorem payload_reads_required_fields (FIREBASE GTAG : string)
    (self : GA4MP.Destination) (event1 event2 : Dict) :
  (forall k, In k (GA4MP.required_fields FIREBASE GTAG self) ->
             dict_get k event1 = dict_get k event2) ->
  GA4MP.build_payload FIREBASE GTAG self event1
  = GA4MP.build_payload FIREBASE GTAG self event2.
Proof.
  unfold GA4MP.required_fields, GA4MP.build_payload, GA4MP.getitem.
  intros H.
  destruct (py_eq_str (GA4MP.payload_type self) FIREBASE);
    [| destruct (py_eq_str (GA4MP.payload_type self) GTAG)];
    cbn [app] in H;
    repeat match goal with
           | |- context [dict_get ?k event1] =>
               rewrite (H k) by (cbn; tauto)
           end;
    reflexivity.
Qed.

Lemma payload_reads_required_fields_witness :
  GA4MP.build_payload Samples.firebase Samples.gtag Samples.web
    (Samples.purchase ++ [("email", VStr "ann@example.com")])
  = GA4MP.build_payload Samples.firebase Samples.gtag Samples.web
      Samples.purchase.
Proof.
  apply (payload_reads_required_fields Samples.firebase Samples.gtag
           Samples.web
           (Samples.purchase ++ [("email", VStr "ann@example.com")])
           Samples.purchase).
  intros k Hk. simpl in Hk.
  destruct Hk as [<- | [<- | [<- | [<- | [<- | []]]]]]; reflexivity.
Defined.

(** X11. A payload is built exactly when the event has every field in
    [required_fields]; otherwise [KeyError] is raised for a field of this
    list that the event does not have. *)
Theorem payload_built_iff (FIREBASE GTAG : string)
    (self : GA4MP.Destination) (event : Dict) :
  ((exists payload, GA4MP.build_payload FIREBASE GTAG self event = Ok payload)
   <-> GA4MP.has_fields FIREBASE GTAG self event = true)
  /\ (forall e, GA4MP.build_payload FIREBASE GTAG self event = Raise e ->
        exists k, e = KeyError (VStr k)
                  /\ In k (GA4MP.required_fields FIREBASE GTAG self)
                  /\ dict_get k event = None).
Proof.
  split; [split |].
  - intros [payload Hp]. revert Hp.
    unfold GA4MP.has_fields, GA4MP.required_fields, GA4MP.build_payload,
      GA4MP.getitem, res_bind.
    destruct (py_eq_str (GA4MP.payload_type self) FIREBASE);
      [| destruct (py_eq_str (GA4MP.payload_type self) GTAG)];
      cbn [app forallb];
      repeat match goal with
             | |- context [match dict_get ?k event with _ => _ end] =>
                 destruct (dict_get k event)
             end;
      intros Hp; try discriminate; reflexivity.
  - apply build_payload_ok.
  - unfold GA4MP.required_fields, GA4MP.build_payload, GA4MP.getitem,
      res_bind.
    intros e.
    destruct (py_eq_str (GA4MP.payload_type self) FIREBASE);
      [| destruct (py_eq_str (GA4MP.payload_type self) GTAG)];
      cbn [app];
      repeat match goal with
             | |- context [match dict_get ?k event with _ => _ end] =>
                 destruct (dict_get k event) eqn:?
             end;
      intros He; inversion He; subst;
      eexists; (split; [reflexivity |]); (split; [cbn; tauto | assumption]).
Qed.

Lemma payload_built_iff_witness :
  exists k,
    KeyError (VStr "user_id") = KeyError (VStr k)
    /\ In k (GA4MP.required_fields Samples.firebase Samples.gtag Samples.web)
    /\ dict_get k Samples.purchase_without_user = None.
Proof.
  apply (proj2 (payload_built_iff Samples.firebase Samples.gtag Samples.web
                  Samples.purchase_without_user)
           (KeyError (VStr "user_id"))).
  reflexivity.
Defined.

(** X12. The keys of a payload, in their order: the identity field of the
    payload type if there is one, [user_id], [non_personalized_ads],
    [user_properties] when the destination has some, and [events], which
    holds one event. No other field of the event is in the payload. *)
Theorem payload_keys (FIREBASE GTAG : string) (self : GA4MP.Destination)
    (event payload : Dict) :
  GA4MP.build_payload FIREBASE GTAG self event = Ok payload ->
  map fst payload
  = (if py_eq_str (GA4MP.payload_type self) FIREBASE then ["app_instance_id"]
     else if py_eq_str (GA4MP.payload_type self) GTAG then ["client_id"]
     else [])
    ++ ["user_id"; "non_personalized_ads"]
    ++ (if truthy (GA4MP.user_properties self) then ["user_properties"]
        else [])
    ++ ["events"]
  /\ dict_get "user_id" payload = dict_get "user_id" event
  /\ dict_get "non_personalized_ads" payload
     = Some (GA4MP.non_personalized_ads self)
  /\ exists name engagement_time_msec session_id,
       dict_get "event_name" event = Some name
       /\ dict_get "engagement_time_msec" event = Some engagement_time_msec
       /\ dict_get "session_id" event = Some session_id
       /\ dict_get "events" payload
          = Some (VList [VDict [("name", name);
                                ("params",
                                 VDict [("engagement_time_msec",
                                         engagement_time_msec);
                                        ("session_id", session_id)])]]).
Proof.
  unfold GA4MP.build_payload, GA4MP.getitem, res_bind.
  destruct (py_eq_str (GA4MP.payload_type self) FIREBASE);
    [| destruct (py_eq_str (GA4MP.payload_type self) GTAG)];
    destruct (truthy (GA4MP.user_properties self));
    repeat match goal with
           | |- context [match dict_get ?k event with _ => _ end] =>
               destruct (dict_get k event) eqn:?
           end;
    intros Hp; inversion Hp; subst; clear Hp;
    (split; [reflexivity |]); (split; [reflexivity |]);
    (split; [reflexivity |]); eauto 10.
Qed.

Lemma payload_keys_witness :
  exists payload,
    GA4MP.build_payload Samples.firebase Samples.gtag Samples.web
      Samples.purchase = Ok payload
    /\ map fst payload
       = ["client_id"; "user_id"; "non_personalized_ads"; "events"].
Proof.
  eexists. split; [reflexivity |].
  apply (proj1 (payload_keys Samples.firebase Samples.gtag Samples.web
                  Samples.purchase _ eq_refl)).
Defined.

(** * Further properties of [GoogleAdsUtils] *)

Section Credentials.
Import GoogleAdsUtils Results.

Lemma missing_loop_filter (config : Dict) (credentials : list string) :
  forall missing,
  missing_loop credentials config missing
  = missing ++ List.filter
                 (fun c => negb (truthy (get_or_empty config c))) credentials.
Proof.
  induction credentials as [|c credentials IH]; intros missing; cbn.
  - now rewrite app_nil_r.
  - rewrite IH.
    destruct (negb (truthy (get_or_empty config c))); [| reflexivity].
    now rewrite <- app_assoc.
Qed.

Lemma get_or_empty_truthy (config : Dict) (k : string) :
  truthy (get_or_empty config k) = true
  <-> exists v, dict_get k config = Some v /\ truthy v = true.
Proof.
  unfold get_or_empty. destruct (dict_get k config) as [v|].
  - split; [eauto | intros (v' & Hv & Ht); congruence].
  - split; [discriminate | intros (v' & Hv & _); discriminate].
Qed.

Lemma credentials_loop_get (config : Dict) (names : list string) :
  forall (credentials : Dict) (k : string),
  dict_get k (credentials_loop names config credentials)
  = if bool_decide (k ∈ names) then Some (get_or_empty config k)
    else dict_get k credentials.
Proof.
  induction names as [|name names IH]; intros credentials k; cbn.
  - rewrite bool_decide_eq_false_2 by apply not_elem_of_nil. reflexivity.
  - rewrite IH, dict_get_set.
    destruct (decide (k ∈ names)) as [Hin|Hout].
    + rewrite !bool_decide_eq_true_2; auto using list_elem_of_further.
    + rewrite (bool_decide_eq_false_2 (k ∈ names)) by exact Hout.
      destruct (String.eqb_spec k name) as [->|Hne].
      * rewrite bool_decide_eq_true_2 by apply list_elem_of_here.
        reflexivity.
      * rewrite bool_decide_eq_false_2; [reflexivity |].
        intros [?|?]%elem_of_cons; congruence.
Qed.

End Credentials.

(** X13. Whatever the order in which the frozenset is iterated, the
    configuration is valid exactly when each of the five credentials has a
    truthy value in it, and then there is no message; otherwise there is
    one message, which lists, after its fixed opening, exactly the
    credentials that are absent or falsy. *)
Theorem validate_google_ads_config_missing (required : list string)
    (config : Dict) :
  Permutation required GoogleAdsUtils._REQUIRED_GOOGLE_ADS_CREDENTIALS ->
  let result := GoogleAdsUtils.validate_google_ads_config required config in
  let missing :=
    List.filter
      (fun c => negb (truthy (GoogleAdsUtils.get_or_empty config c)))
      required in
  (Results.is_valid result = true <->
     forall c, In c GoogleAdsUtils._REQUIRED_GOOGLE_ADS_CREDENTIALS ->
               exists v, dict_get c config = Some v /\ truthy v = true)
  /\ (Results.is_valid result = true -> Results.messages result = [])
  /\ (Results.is_valid result = false ->
        Results.messages result
        = ["Config requires the following fields to be set: "
           +:+ PyStr.join ", " missing]
        /\ missing <> []
        /\ forall c,
             In c missing <->
             In c GoogleAdsUtils._REQUIRED_GOOGLE_ADS_CREDENTIALS
             /\ truthy (GoogleAdsUtils.get_or_empty config c) = false).
Proof.
  intros Hperm result missing.
  assert (Hres : result
                 = match missing with
                   | _ :: _ =>
                       Results.mkValidationResult false
                         ["Config requires the following fields to be set: "
                          +:+ PyStr.join ", " missing]
                   | [] => Results.mkValidationResult true []
                   end).
  { unfold result, GoogleAdsUtils.validate_google_ads_config.
    rewrite missing_loop_filter. reflexivity. }
  assert (Hin : forall c,
            In c missing <->
            In c GoogleAdsUtils._REQUIRED_GOOGLE_ADS_CREDENTIALS
            /\ truthy (GoogleAdsUtils.get_or_empty config c) = false).
  { intros c. unfold missing. rewrite List.filter_In, negb_true_iff.
    split; intros [Hc Ht]; split; auto.
    - eapply Permutation_in; eauto.
    - eapply Permutation_in; [symmetry |]; eauto. }
  split; [| split].
  - rewrite Hres. destruct missing as [|m missing'] eqn:Hmis; cbn.
    + split; [| reflexivity]. intros _ c Hc.
      apply get_or_empty_truthy.
      destruct (truthy (GoogleAdsUtils.get_or_empty config c)) eqn:Ht;
        [reflexivity |].
      exfalso. apply (proj2 (Hin c)); auto.
    + split; [discriminate |]. intros Hall. exfalso.
      destruct (proj1 (Hin m) (or_introl eq_refl)) as [Hm Ht].
      apply Hall, get_or_empty_truthy in Hm. congruence.
  - rewrite Hres. destruct missing; [reflexivity | discriminate].
  - rewrite Hres. destruct missing as [|m missing'] eqn:Hmis; cbn;
      [discriminate |].
    intros _. split; [reflexivity |]. split; [discriminate | exact Hin].
Qed.

Lemma validate_google_ads_config_missing_witness :
  Results.messages
    (GoogleAdsUtils.validate_google_ads_config
       ["refresh_token"; "client_id"; "login_customer_id"; "client_secret";
        "developer_token"]
       [("client_id", VStr "id"); ("client_secret", VStr "");
        ("developer_token", VStr "token"); ("refresh_token", VStr "r")])
  = ["Config requires the following fields to be set: "
     +:+ "login_customer_id, client_secret"].
Proof.
  apply (proj2 (proj2 (validate_google_ads_config_missing
           ["refresh_token"; "client_id"; "login_customer_id";
            "client_secret"; "developer_token"]
           [("client_id", VStr "id"); ("client_secret", VStr "");
            ("developer_token", VStr "token"); ("refresh_token", VStr "r")]
           ltac:(unfold GoogleAdsUtils._REQUIRED_GOOGLE_ADS_CREDENTIALS;
                 apply (Permutation_cons_app
                          ["client_id"; "client_secret"; "developer_token";
                           "login_customer_id"] []);
                 apply perm_skip;
                 apply (Permutation_cons_app
                          ["client_secret"; "developer_token"] []);
                 apply Permutation_refl))) eq_refl).
Defined.

(** X14. The credentials that [build_google_ads_client] hands to
    [load_from_dict] hold [use_proto_plus] set to [True], every required
    credential with its value in the configuration (the empty string when
    it has none), and nothing else of the configuration. *)
Theorem build_google_ads_client_credentials {Client : Type}
    (load_from_dict : Dict -> string -> Res Client)
    (required : list string) (config : Dict) (version : string) :
  Permutation required GoogleAdsUtils._REQUIRED_GOOGLE_ADS_CREDENTIALS ->
  exists credentials : Dict,
    GoogleAdsUtils.build_google_ads_client required load_from_dict config
      version
    = load_from_dict credentials version
    /\ forall k,
         dict_get k credentials
         = if String.eqb k "use_proto_plus" then Some (VBool true)
           else if bool_decide
                     (k ∈ GoogleAdsUtils._REQUIRED_GOOGLE_ADS_CREDENTIALS)
                then Some (GoogleAdsUtils.get_or_empty config k)
                else None.
Proof.
  intros Hperm. eexists. split; [reflexivity |].
  intros k. rewrite dict_get_set.
  destruct (String.eqb k "use_proto_plus"); [reflexivity |].
  rewrite credentials_loop_get.
  assert (Hiff : k ∈ required
                 <-> k ∈ GoogleAdsUtils._REQUIRED_GOOGLE_ADS_CREDENTIALS).
  { rewrite !list_elem_of_In. split; apply Permutation_in;
      [exact Hperm | symmetry; exact Hperm]. }
  destruct (decide (k ∈ required)) as [Hin|Hout].
  - rewrite !bool_decide_eq_true_2; tauto.
  - rewrite !bool_decide_eq_false_2; tauto.
Qed.

Lemma build_google_ads_client_credentials_witness :
  exists credentials : Dict,
    GoogleAdsUtils.build_google_ads_client
      GoogleAdsUtils._REQUIRED_GOOGLE_ADS_CREDENTIALS
      (fun d v => Ok (d, v))
      [("client_id", VStr "id"); ("password", VStr "secret")] "v17"
    = Ok (credentials, "v17")
    /\ forall k,
         dict_get k credentials
         = if String.eqb k "use_proto_plus" then Some (VBool true)
           else if bool_decide
                     (k ∈ GoogleAdsUtils._REQUIRED_GOOGLE_ADS_CREDENTIALS)
                then Some (GoogleAdsUtils.get_or_empty
                             [("client_id", VStr "id");
                              ("password", VStr "secret")] k)
                else None.
Proof.
  apply (build_google_ads_client_credentials (fun d v => Ok (d, v))
           GoogleAdsUtils._REQUIRED_GOOGLE_ADS_CREDENTIALS
           [("client_id", VStr "id"); ("password", VStr "secret")] "v17").
  apply Permutation_refl.
Defined.

(** ** Normalizing and hashing *)

Section Strings.
Import PyStr.

Ltac by_character c :=
  destruct c as [[] [] [] [] [] [] [] []]; reflexivity.

Lemma lower_char_idem (c : Ascii.ascii) :
  lower_char (lower_char c) = lower_char c.
Proof. by_character c. Qed.

Lemma lower_char_at (c : Ascii.ascii) :
  Ascii.eqb (lower_char c) at_sign = Ascii.eqb c at_sign.
Proof. by_character c. Qed.

Lemma lower_char_dot (c : Ascii.ascii) :
  Ascii.eqb (lower_char c) dot = Ascii.eqb c dot.
Proof. by_character c. Qed.

Lemma lower_char_space (c : Ascii.ascii) :
  is_space (lower_char c) = is_space c.
Proof. by_character c. Qed.

Lemma lower_idem (s : string) : lower (lower s) = lower s.
Proof.
  induction s as [|c s IH]; cbn; [reflexivity |].
  now rewrite lower_char_idem, IH.
Qed.

Lemma lower_app (a b : string) : lower (a +:+ b) = lower a +:+ lower b.
Proof.
  induction a as [|c a IH]; [reflexivity |].
  rewrite append_cons. cbn [lower]. rewrite append_cons. now rewrite IH.
Qed.

Lemma lower_has_at (s : string) :
  has_char at_sign (lower s) = has_char at_sign s.
Proof.
  induction s as [|c s IH]; cbn [has_char lower]; [reflexivity |].
  now rewrite lower_char_at, IH.
Qed.

Lemma lower_remove_dot (s : string) :
  lower (remove_char dot s) = remove_char dot (lower s).
Proof.
  induction s as [|c s IH]; cbn [remove_char lower]; [reflexivity |].
  rewrite lower_char_dot.
  destruct (Ascii.eqb c dot); cbn [lower]; now rewrite IH.
Qed.

Lemma remove_char_has (c : Ascii.ascii) (s : string) :
  has_char at_sign (remove_char c s) = true -> has_char at_sign s = true.
Proof.
  induction s as [|x s IH]; cbn [remove_char has_char]; [discriminate |].
  destruct (Ascii.eqb x c); cbn [has_char].
  - intros H. rewrite (IH H). apply orb_true_r.
  - destruct (Ascii.eqb x at_sign); [reflexivity | exact IH].
Qed.

Lemma rstrip_cons (c : Ascii.ascii) (s : string) :
  rstrip (String c s)
  = match rstrip s with
    | EmptyString => if is_space c then EmptyString else String c EmptyString
    | r => String c r
    end.
Proof. reflexivity. Qed.

Lemma lstrip_lower (s : string) : lstrip (lower s) = lower (lstrip s).
Proof.
  induction s as [|c s IH]; cbn; [reflexivity |].
  rewrite lower_char_space. destruct (is_space c); [exact IH | reflexivity].
Qed.

Lemma rstrip_lower (s : string) : rstrip (lower s) = lower (rstrip s).
Proof.
  induction s as [|c s IH]; [reflexivity |].
  cbn [lower]. rewrite !rstrip_cons, IH, lower_char_space.
  destruct (rstrip s); cbn [lower]; [destruct (is_space c) |]; reflexivity.
Qed.

Lemma strip_lower (s : string) : strip (lower s) = lower (strip s).
Proof. unfold strip. now rewrite lstrip_lower, rstrip_lower. Qed.

Lemma rstrip_idem (s : string) : rstrip (rstrip s) = rstrip s.
Proof.
  induction s as [|c s IH]; [reflexivity |].
  rewrite rstrip_cons.
  destruct (rstrip s) as [|x r] eqn:Hr.
  - destruct (is_space c) eqn:Hc; [reflexivity |].
    rewrite rstrip_cons. cbn [rstrip]. now rewrite Hc.
  - rewrite rstrip_cons, IH. reflexivity.
Qed.

(** A string that is [lstrip]ped does not begin with a space, and
    [rstrip] keeps its first character. *)
Lemma lstrip_rstrip_lstrip (s : string) :
  lstrip (rstrip (lstrip s)) = rstrip (lstrip s).
Proof.
  induction s as [|c s IH]; cbn [lstrip]; [reflexivity |].
  destruct (is_space c) eqn:Hc; [exact IH |].
  rewrite rstrip_cons.
  destruct (rstrip s); rewrite ?Hc; cbn [lstrip]; now rewrite Hc.
Qed.

Lemma strip_idem (s : string) : strip (strip s) = strip s.
Proof.
  unfold strip. now rewrite lstrip_rstrip_lstrip, rstrip_idem.
Qed.

Lemma rstrip_snoc (c : Ascii.ascii) (s : string) :
  is_space c = true -> rstrip (s +:+ String c EmptyString) = rstrip s.
Proof.
  intros Hc. induction s as [|x s IH].
  - change (EmptyString +:+ String c EmptyString) with (String c EmptyString).
    rewrite rstrip_cons. cbn [rstrip]. now rewrite Hc.
  - rewrite append_cons, !rstrip_cons. now rewrite IH.
Qed.

Lemma strip_snoc (c : Ascii.ascii) (s : string) :
  is_space c = true -> strip (s +:+ String c EmptyString) = strip s.
Proof.
  intros Hc. unfold strip. induction s as [|x s IH].
  - change (EmptyString +:+ String c EmptyString) with (String c EmptyString).
    cbn [lstrip]. now rewrite Hc.
  - rewrite append_cons. cbn [lstrip].
    destruct (is_space x); [exact IH |].
    rewrite <- append_cons. now apply rstrip_snoc.
Qed.

(** Splitting. *)
Lemma split_no_sep (sep : Ascii.ascii) (s : string) :
  has_char sep s = false -> split sep s = [s].
Proof.
  induction s as [|c s IH]; cbn [has_char split]; [reflexivity |].
  destruct (Ascii.eqb c sep); cbn [orb]; [discriminate |].
  intros H. now rewrite (IH H).
Qed.

Lemma split_sep (sep : Ascii.ascii) (a b : string) :
  has_char sep a = false ->
  split sep (a +:+ String sep b) = a :: split sep b.
Proof.
  intros Ha. induction a as [|c a IH].
  - change (EmptyString +:+ String sep b) with (String sep b).
    cbn [split]. now rewrite Ascii.eqb_refl.
  - rewrite append_cons. cbn [has_char split] in Ha |- *.
    destruct (Ascii.eqb c sep); [discriminate |].
    cbn [orb] in Ha. now rewrite (IH Ha).
Qed.

Lemma split_second (sep : Ascii.ascii) (s : string) :
  has_char sep s = true -> exists part, split sep s !! 1%nat = Some part.
Proof.
  induction s as [|c s IH]; cbn [has_char split]; [discriminate |].
  destruct (Ascii.eqb c sep); cbn [orb].
  - intros _. destruct s as [|x s]; cbn [split]; [cbn; eauto |].
    destruct (Ascii.eqb x sep); [cbn; eauto |].
    destruct (split sep s); cbn; eauto.
  - intros H. destruct (IH H) as [part Hp].
    destruct (split sep s) as [|p [|q ps]]; cbn in Hp |- *;
      try discriminate.
    eauto.
Qed.

End Strings.

Section Hashing.
Import PyStr GoogleAdsUtils.

Variable sha256_hexdigest : string -> string.

Lemma normalize_and_hash_lower (s : string) :
  normalize_and_hash sha256_hexdigest (lower s)
  = normalize_and_hash sha256_hexdigest s.
Proof.
  unfold normalize_and_hash. now rewrite strip_lower, lower_idem.
Qed.

Lemma gmail_match_no_at (domain : string) :
  gmail_match domain = true -> has_char at_sign domain = false.
Proof.
  unfold gmail_match. cbn [existsb]. rewrite !orb_true_iff.
  intros [H | [H | [H | [H | H]]]]; try discriminate;
    apply String.eqb_eq in H; subst; reflexivity.
Qed.

End Hashing.

(** X15. [normalize_and_hash] does not depend on the case of the letters,
    nor on white space before or after the text. *)
Theorem normalize_and_hash_invariant (sha256_hexdigest : string -> string)
    (s : string) (c : Ascii.ascii) :
  GoogleAdsUtils.normalize_and_hash sha256_hexdigest (PyStr.lower s)
  = GoogleAdsUtils.normalize_and_hash sha256_hexdigest s
  /\ GoogleAdsUtils.normalize_and_hash sha256_hexdigest (PyStr.strip s)
     = GoogleAdsUtils.normalize_and_hash sha256_hexdigest s
  /\ (PyStr.is_space c = true ->
        GoogleAdsUtils.normalize_and_hash sha256_hexdigest (String c s)
        = GoogleAdsUtils.normalize_and_hash sha256_hexdigest s
        /\ GoogleAdsUtils.normalize_and_hash sha256_hexdigest
             (s +:+ String c EmptyString)
           = GoogleAdsUtils.normalize_and_hash sha256_hexdigest s).
Proof.
  split; [apply normalize_and_hash_lower |]. split.
  - unfold GoogleAdsUtils.normalize_and_hash. now rewrite strip_idem.
  - intros Hc. unfold GoogleAdsUtils.normalize_and_hash. split.
    + unfold PyStr.strip. cbn [PyStr.lstrip]. now rewrite Hc.
    + now rewrite strip_snoc.
Qed.

Lemma normalize_and_hash_invariant_witness :
  GoogleAdsUtils.normalize_and_hash (fun s => s) (String (Ascii.ascii_of_N 32) "Ann")
  = GoogleAdsUtils.normalize_and_hash (fun s => s) "Ann"
  /\ GoogleAdsUtils.normalize_and_hash (fun s => s)
       ("Ann" +:+ String (Ascii.ascii_of_N 32) EmptyString)
     = GoogleAdsUtils.normalize_and_hash (fun s => s) "Ann".
Proof.
  apply (proj2 (proj2 (normalize_and_hash_invariant (fun s => s) "Ann"
                         (Ascii.ascii_of_N 32))) eq_refl).
Defined.

(** X16. An address without ["@"] makes
    [normalize_and_hash_email_address] raise [IndexError], because the
    second part is read before the number of parts is looked at; an
    address with an ["@"] gives a hash. *)
Theorem email_without_at (sha256_hexdigest : string -> string)
    (email_address : string) :
  (PyStr.has_char PyStr.at_sign email_address = false ->
     GoogleAdsUtils.normalize_and_hash_email_address sha256_hexdigest
       email_address = Raise IndexError)
  /\ (PyStr.has_char PyStr.at_sign email_address = true ->
        exists h,
          GoogleAdsUtils.normalize_and_hash_email_address sha256_hexdigest
            email_address = Ok h).
Proof.
  unfold GoogleAdsUtils.normalize_and_hash_email_address. split; intros H.
  - rewrite split_no_sep by now rewrite lower_has_at.
    reflexivity.
  - destruct (split_second PyStr.at_sign (PyStr.lower email_address))
      as [part ->]; [now rewrite lower_has_at |].
    cbn [res_bind]. eauto.
Qed.

Lemma email_without_at_witness :
  GoogleAdsUtils.normalize_and_hash_email_address (fun s => s) "ann.example.com"
  = Raise IndexError
  /\ exists h,
       GoogleAdsUtils.normalize_and_hash_email_address (fun s => s)
         "ann@example.com" = Ok h.
Proof.
  split.
  - apply (proj1 (email_without_at (fun s => s) "ann.example.com")).
    reflexivity.
  - apply (proj2 (email_without_at (fun s => s) "ann@example.com")).
    reflexivity.
Defined.

(** X17. [normalize_and_hash_email_address] does not depend on the case of
    the letters of the address. *)
Theorem email_case_insensitive (sha256_hexdigest : string -> string)
    (email_address : string) :
  GoogleAdsUtils.normalize_and_hash_email_address sha256_hexdigest
    (PyStr.lower email_address)
  = GoogleAdsUtils.normalize_and_hash_email_address sha256_hexdigest
      email_address.
Proof.
  unfold GoogleAdsUtils.normalize_and_hash_email_address.
  now rewrite lower_idem.
Qed.

(** X18. For an address [local@domain] whose domain is [gmail.com] or
    [googlemail.com] in any case, the dots of the local part are removed
    before hashing: the result is the hash of the address without them, so
    two such addresses that differ only in the dots and the case of the
    local part have the same hash. *)
Theorem gmail_dots_removed (sha256_hexdigest : string -> string)
    (local domain : string) :
  PyStr.has_char PyStr.at_sign local = false ->
  GoogleAdsUtils.gmail_match (PyStr.lower domain) = true ->
  GoogleAdsUtils.normalize_and_hash_email_address sha256_hexdigest
    (local +:+ String PyStr.at_sign domain)
  = Ok (GoogleAdsUtils.normalize_and_hash sha256_hexdigest
          (PyStr.remove_char PyStr.dot local +:+ String PyStr.at_sign domain))
  /\ forall local' : string,
       PyStr.has_char PyStr.at_sign local' = false ->
       PyStr.remove_char PyStr.dot (PyStr.lower local')
       = PyStr.remove_char PyStr.dot (PyStr.lower local) ->
       GoogleAdsUtils.normalize_and_hash_email_address sha256_hexdigest
         (local' +:+ String PyStr.at_sign domain)
       = GoogleAdsUtils.normalize_and_hash_email_address sha256_hexdigest
           (local +:+ String PyStr.at_sign domain).
Proof.
  intros Hlocal Hgmail.
  assert (Hrun : forall l, PyStr.has_char PyStr.at_sign l = false ->
            GoogleAdsUtils.normalize_and_hash_email_address sha256_hexdigest
              (l +:+ String PyStr.at_sign domain)
            = Ok (GoogleAdsUtils.normalize_and_hash sha256_hexdigest
                    (PyStr.remove_char PyStr.dot (PyStr.lower l)
                     +:+ String PyStr.at_sign (PyStr.lower domain)))).
  { intros l Hl. unfold GoogleAdsUtils.normalize_and_hash_email_address.
    rewrite lower_app.
    change (PyStr.lower (String PyStr.at_sign domain))
      with (String PyStr.at_sign (PyStr.lower domain)).
    rewrite split_sep by now rewrite lower_has_at.
    rewrite split_no_sep by now apply gmail_match_no_at.
    cbn [lookup list_lookup res_bind length]. rewrite Hgmail.
    reflexivity. }
  assert (Hnorm : forall l,
            GoogleAdsUtils.normalize_and_hash sha256_hexdigest
              (PyStr.remove_char PyStr.dot (PyStr.lower l)
               +:+ String PyStr.at_sign (PyStr.lower domain))
            = GoogleAdsUtils.normalize_and_hash sha256_hexdigest
                (PyStr.remove_char PyStr.dot l
                 +:+ String PyStr.at_sign domain)).
  { intros l.
    rewrite <- (normalize_and_hash_lower sha256_hexdigest
                  (PyStr.remove_char PyStr.dot l
                   +:+ String PyStr.at_sign domain)).
    rewrite lower_app, lower_remove_dot. reflexivity. }
  split.
  - rewrite (Hrun local Hlocal). now rewrite Hnorm.
  - intros local' Hlocal' Heq.
    rewrite (Hrun local Hlocal), (Hrun local' Hlocal'). now rewrite Heq.
Qed.

Lemma gmail_dots_removed_witness :
  GoogleAdsUtils.normalize_and_hash_email_address (fun s => s)
    "Ann.Lee@Gmail.com"
  = GoogleAdsUtils.normalize_and_hash_email_address (fun s => s)
      "annlee@Gmail.com".
Proof.
  apply (proj2 (gmail_dots_removed (fun s => s) "annlee" "Gmail.com"
                  eq_refl eq_refl) "Ann.Lee" eq_refl eq_refl).
Defined.

(** X19. For an address with an ["@"] whose second part is not a Gmail
    domain the dots stay: the result is the hash of the address as
    [normalize_and_hash] gives it. *)
Theorem other_domain_hashed_whole (sha256_hexdigest : string -> string)
    (email_address domain : string) :
  PyStr.split PyStr.at_sign (PyStr.lower email_address) !! 1%nat
  = Some domain ->
  GoogleAdsUtils.gmail_match domain = false ->
  GoogleAdsUtils.normalize_and_hash_email_address sha256_hexdigest
    email_address
  = Ok (GoogleAdsUtils.normalize_and_hash sha256_hexdigest email_address).
Proof.
  intros Hd Hg. unfold GoogleAdsUtils.normalize_and_hash_email_address.
  rewrite Hd. cbn [res_bind]. rewrite Hg, andb_false_r.
  now rewrite normalize_and_hash_lower.
Qed.

Lemma other_domain_hashed_whole_witness :
  GoogleAdsUtils.normalize_and_hash_email_address (fun s => s)
    "Ann.Lee@Example.com"
  = Ok "ann.lee@example.com".
Proof.
  apply (other_domain_hashed_whole (fun s => s) "Ann.Lee@Example.com"
           "example.com" eq_refl eq_refl).
Defined.

(** * Further properties of [DrillMixin] *)

Section ConfigObjects.
Import DrillMixin.

Lemma dict_get_None (k : string) (d : Dict) :
  dict_get k d = None <-> k ∉ d.*1.
Proof.
  induction d as [|[k' v] d IH]; cbn [dict_get].
  - split; [intros _; apply not_elem_of_nil | reflexivity].
  - rewrite fmap_cons, not_elem_of_cons. cbn [fst].
    destruct (String.eqb_spec k k') as [->|Hne].
    + split; [discriminate | intros [? _]; congruence].
    + rewrite IH. tauto.
Qed.

Lemma dict_get_del_other (k k' : string) (d : Dict) :
  k <> k' -> dict_get k (dict_del k' d) = dict_get k d.
Proof.
  intros Hne. induction d as [|[k0 v] d IH]; cbn [dict_del dict_get];
    [reflexivity |].
  destruct (String.eqb_spec k' k0) as [->|Hne0].
  - destruct (String.eqb_spec k k0); [congruence | reflexivity].
  - cbn [dict_get]. now rewrite IH.
Qed.

Lemma dict_get_del_same (k : string) (d : Dict) :
  NoDup d.*1 -> dict_get k (dict_del k d) = None.
Proof.
  induction d as [|[k0 v] d IH]; cbn [dict_del dict_get]; [reflexivity |].
  rewrite fmap_cons. cbn [fst]. intros [Hk0 Hd]%NoDup_cons.
  destruct (String.eqb_spec k k0) as [->|Hne].
  - now apply dict_get_None.
  - cbn [dict_get]. destruct (String.eqb_spec k k0); [congruence |].
    now apply IH.
Qed.

Lemma dict_del_length (k : string) (d : Dict) :
  dict_has k d = true -> S (length (dict_del k d)) = length d.
Proof.
  unfold dict_has.
  induction d as [|[k0 v] d IH]; cbn [dict_del dict_get length];
    [discriminate |].
  destruct (String.eqb k k0); [reflexivity |].
  intros H. cbn [length]. now rewrite IH.
Qed.

Lemma py_eq_str_true (v : pyval) (s : string) :
  py_eq_str v s = true <-> v = VStr s.
Proof.
  destruct v; cbn; try (split; [discriminate | intros H; discriminate]).
  rewrite String.eqb_eq. split; [now intros -> | now intros [= ->]].
Qed.

Lemma config_obj_lookup (obj : Dict) (key value : string) :
  NoDup obj.*1 ->
  dict_get key (fst (_validate_or_update_config_obj obj key value))
  = (if String.eqb value "" then None else Some (VStr value))
  /\ forall k, k <> key ->
       dict_get k (fst (_validate_or_update_config_obj obj key value))
       = dict_get k obj.
Proof.
  intros Hnd. unfold _validate_or_update_config_obj.
  cbn [truthy]. destruct (String.eqb value "") eqn:Hv; cbn [negb].
  - destruct (dict_has key obj) eqn:Hhas; cbn [fst].
    + split; [now apply dict_get_del_same |].
      intros k Hk. now apply dict_get_del_other.
    + split; [| reflexivity].
      unfold dict_has in Hhas.
      destruct (dict_get key obj); [discriminate | reflexivity].
  - destruct (get_equals obj key value) eqn:Heq; cbn [fst].
    + split; [| reflexivity].
      unfold get_equals in Heq.
      destruct (dict_get key obj) as [v|]; [| discriminate].
      apply py_eq_str_true in Heq. now subst v.
    + split.
      * now rewrite dict_get_set, String.eqb_refl.
      * intros k Hk. rewrite dict_get_set.
        destruct (String.eqb_spec k key); [congruence | reflexivity].
Qed.

End ConfigObjects.

(** X20. [_validate_or_update_config_obj] returns [False] exactly when it
    leaves the object as it was. *)
Theorem config_obj_flag (obj : Dict) (key value : string) :
  snd (DrillMixin._validate_or_update_config_obj obj key value) = false
  <-> fst (DrillMixin._validate_or_update_config_obj obj key value) = obj.
Proof.
  unfold DrillMixin._validate_or_update_config_obj.
  destruct (negb (truthy (VStr value))).
  - destruct (DrillMixin.dict_has key obj) eqn:Hhas; cbn [fst snd];
      [| tauto].
    split; [discriminate |]. intros Heq.
    apply dict_del_length in Hhas. rewrite Heq in Hhas. lia.
  - destruct (DrillMixin.get_equals obj key value) eqn:Heq; cbn [fst snd];
      [tauto |].
    split; [discriminate |]. intros Hobj. exfalso.
    assert (Hget : dict_get key obj = Some (VStr value)).
    { rewrite <- Hobj at 1. rewrite dict_get_set, String.eqb_refl.
      reflexivity. }
    unfold DrillMixin.get_equals in Heq. rewrite Hget in Heq.
    cbn in Heq. now rewrite String.eqb_refl in Heq.
Qed.

(** X21. After the call the object holds [value] under [key] when [value]
    is not empty and has no [key] when it is empty; every other key holds
    what it held before. *)
Theorem config_obj_after (obj : Dict) (key value : string) :
  NoDup obj.*1 ->
  let obj' := fst (DrillMixin._validate_or_update_config_obj obj key value) in
  dict_get key obj'
  = (if String.eqb value "" then None else Some (VStr value))
  /\ forall k, k <> key -> dict_get k obj' = dict_get k obj.
Proof.
  intros Hnd obj'. now apply config_obj_lookup.
Qed.

Lemma config_obj_after_witness :
  dict_get "workspace"
    (fst (DrillMixin._validate_or_update_config_obj
            [("type", VStr "file"); ("workspace", VStr "old")]
            "workspace" ""))
  = None
  /\ forall k, k <> "workspace" ->
       dict_get k
         (fst (DrillMixin._validate_or_update_config_obj
                 [("type", VStr "file"); ("workspace", VStr "old")]
                 "workspace" ""))
       = dict_get k [("type", VStr "file"); ("workspace", VStr "old")].
Proof.
  apply (config_obj_after
           [("type", VStr "file"); ("workspace", VStr "old")]
           "workspace" "").
  apply (bool_decide_unpack _). vm_compute. exact I.
Defined.

(** X22. A second call with the same key and value changes nothing and
    returns [False]. *)
Theorem config_obj_settled (obj : Dict) (key value : string) :
  NoDup obj.*1 ->
  DrillMixin._validate_or_update_config_obj
    (fst (DrillMixin._validate_or_update_config_obj obj key value)) key value
  = (fst (DrillMixin._validate_or_update_config_obj obj key value), false).
Proof.
  intros Hnd.
  destruct (config_obj_lookup obj key value Hnd) as [Hget _].
  revert Hget.
  set (obj' := fst (DrillMixin._validate_or_update_config_obj obj key value)).
  intros Hget.
  unfold DrillMixin._validate_or_update_config_obj at 1.
  cbn [truthy]. destruct (String.eqb value "") eqn:Hv; cbn [negb].
  - unfold DrillMixin.dict_has. rewrite Hget. reflexivity.
  - unfold DrillMixin.get_equals. rewrite Hget. cbn.
    now rewrite String.eqb_refl.
Qed.

Lemma config_obj_settled_witness :
  DrillMixin._validate_or_update_config_obj
    (fst (DrillMixin._validate_or_update_config_obj
            [("type", VStr "file")] "workspace" "tmp"))
    "workspace" "tmp"
  = (fst (DrillMixin._validate_or_update_config_obj
            [("type", VStr "file")] "workspace" "tmp"), false).
Proof.
  apply (config_obj_settled [("type", VStr "file")] "workspace" "tmp").
  apply (bool_decide_unpack _). vm_compute. exact I.
Defined.

(** X9 on the three sample events. *)
Lemma one_post_per_event_witness :
  GA4MP.posts
    (snd (GA4MP._get_valid_and_invalid_events Samples.firebase Samples.gtag
            Samples.error_types Samples.mixed Samples.web
            [Samples.purchase; Samples.purchase; Samples.purchase]
            Samples.start))
  = 3%nat.
Proof.
  apply (proj2 (one_post_per_event Samples.firebase Samples.gtag
                  Samples.error_types Samples.mixed Samples.web
                  [Samples.purchase; Samples.purchase; Samples.purchase]
                  Samples.start)
           ([(2%nat, Samples.purchase)],
            [(0%nat, Member RETRIABLE_GA4_HOOK_ERROR_HTTP_ERROR);
             (1%nat, Member (FIELD_ERROR "client_id"))])).
  reflexivity.
Defined.

(** X23. Once it has a cursor, [validate_drill] raises nothing: whatever
    the query or the cursor raises becomes a result that is not valid. The
    result is valid exactly when the query executes and [fetchone] gives a
    row whose first value is truthy; a result that is not valid has one
    message. *)
Theorem validate_drill_result (format_exc : exn -> string)
    (cursor : DrillMixin.Cursor) (path unique_id : string) :
  let query := "SELECT " +:+ unique_id +:+ " FROM " +:+ path in
  exists r : Results.ValidationResult,
    DrillMixin.validate_drill format_exc (Ok cursor) path unique_id = Ok r
    /\ (Results.is_valid r = true <->
          exists row id_value,
            DrillMixin.execute cursor query = Ok tt
            /\ DrillMixin.fetchone cursor query = Ok row
            /\ GA4MP.subscript0 row = Ok id_value
            /\ truthy id_value = true)
    /\ (Results.is_valid r = true -> Results.messages r = [])
    /\ (Results.is_valid r = false -> length (Results.messages r) = 1%nat).
Proof.
  intros query. unfold DrillMixin.validate_drill. cbn [res_bind].
  fold query.
  destruct (DrillMixin.execute cursor query) as [[]|e] eqn:He; cbn [res_bind].
  - destruct (DrillMixin.fetchone cursor query) as [row|e] eqn:Hrow;
      cbn [res_bind].
    + destruct (GA4MP.subscript0 row) as [v|e] eqn:Hv.
      * destruct (truthy v) eqn:Ht; cbn [negb]; eexists;
          (split; [reflexivity |]); cbn.
        -- split; [| split; [reflexivity | discriminate]].
           split; [| reflexivity]. intros _. exists row, v. auto.
        -- split; [| split; [discriminate | reflexivity]].
           split; [discriminate |].
           intros (row' & v' & _ & Hr & Hv' & Ht'). congruence.
      * eexists. split; [reflexivity |]. cbn.
        split; [| split; [discriminate | reflexivity]].
        split; [discriminate |].
        intros (row' & v' & _ & Hr & Hv' & _). congruence.
    + eexists. split; [reflexivity |]. cbn.
      split; [| split; [discriminate | reflexivity]].
      split; [discriminate |].
      intros (row' & v' & _ & Hr & _). congruence.
  - eexists. split; [reflexivity |]. cbn.
    split; [| split; [discriminate | reflexivity]].
    split; [discriminate |].
    intros (row' & v' & Hx & _). congruence.
Qed.

(** X24. With a cursor that executes the query: a [RuntimeError] of
    [fetchall] gives the empty list; a fetched row that is shorter than the
    list of fields makes [get_drill_data] raise [IndexError], which it does
    not catch; and when every fetched row is long enough the result has at
    most one mapping per row, each with a truthy value. *)
Theorem get_drill_data_rows (cursor : DrillMixin.Cursor)
    (from_target : string) (fields : list string) (offset limit : Z)
    (unique_id : string) (rows : list (list pyval)) :
  (forall q, DrillMixin.execute cursor q = Ok tt) ->
  ((forall q, DrillMixin.fetchall cursor q = Raise DrillMixin.RuntimeError) ->
     DrillMixin.get_drill_data (Ok cursor) from_target fields offset limit
       unique_id = Ok [])
  /\ ((forall q, DrillMixin.fetchall cursor q = Ok rows) ->
      Exists (fun row => (length row < length fields)%nat) rows ->
      DrillMixin.get_drill_data (Ok cursor) from_target fields offset limit
        unique_id = Raise IndexError)
  /\ ((forall q, DrillMixin.fetchall cursor q = Ok rows) ->
      Forall (fun row => (length fields <= length row)%nat) rows ->
      exists events,
        DrillMixin.get_drill_data (Ok cursor) from_target fields offset limit
          unique_id = Ok events
        /\ Forall (fun m => any (dict_values m) = true) events
        /\ (length events <= length rows)%nat).
Proof.
  intros Hexec. unfold DrillMixin.get_drill_data. cbn [res_bind].
  rewrite Hexec. cbn [res_bind].
  split; [| split].
  - intros Hfetch. rewrite Hfetch. reflexivity.
  - intros Hfetch Hshort. rewrite Hfetch. cbn [res_bind].
    unfold Utils._parse_data. rewrite rows_loop_short by exact Hshort.
    reflexivity.
  - intros Hfetch Hlong. rewrite Hfetch. cbn [res_bind].
    assert (Hms : exists ms,
               Forall2 (fun row m =>
                          Utils.fill_event_dict fields 0 row [] = Ok m)
                       rows ms).
    { clear Hfetch. induction Hlong as [|row rows' Hrow _ [ms IH]].
      - exists []. constructor.
      - destruct (fill_event_dict_total row fields 0 []) as [m Hm]; [lia |].
        exists (m :: ms). now constructor. }
    destruct Hms as [ms Hms].
    unfold Utils._parse_data. rewrite (rows_loop_filter fields rows ms Hms).
    eexists. split; [reflexivity |]. cbn [app]. split.
    + apply Forall_forall. intros m Hm.
      apply list_elem_of_In, List.filter_In in Hm. tauto.
    + rewrite (Forall2_length _ _ _ Hms). apply List.filter_length_le.
Qed.

Lemma get_drill_data_rows_witness :
  DrillMixin.get_drill_data
    (Ok {| DrillMixin.execute := fun _ => Ok tt;
           DrillMixin.fetchone := fun _ => Ok VNone;
           DrillMixin.fetchall := fun _ => Raise DrillMixin.RuntimeError |})
    "dfs.`/data/events.csv`" ["id"; "name"] 0 100 "id"
  = Ok [].
Proof.
  apply (proj1 (get_drill_data_rows
                  {| DrillMixin.execute := fun _ => Ok tt;
                     DrillMixin.fetchone := fun _ => Ok VNone;
                     DrillMixin.fetchall :=
                       fun _ => Raise DrillMixin.RuntimeError |}
                  "dfs.`/data/events.csv`" ["id"; "name"] 0 100 "id" []
                  (fun _ => eq_refl)) (fun _ => eq_refl)).
Defined.
